(** * tools/last_user_activity.py: member enumeration, activity lookup, report

    A shallow embedding of the script that lists the members of a fixed set
    of organizations, looks up each member's latest public event and prints
    the members by recency.

    The platform is a [ClientSession]: one response per request the script
    can build.  A run is a value of the monad [M]: the events it caused
    (requests sent, lines printed), in order, and how it ended: a normal
    return, an exception, or not within the given number of loop rounds.

    What the model covers and what it leaves out:
    - Response bodies are typed by the endpoint's schema (members carry a
      [login], events a [created_at], the rate limit its [remaining] and
      [reset]); bodies outside the schema and failures of the transport are
      not modelled.
    - The model starts at [main()], with the token present.
    - [datetime.fromisoformat], [datetime.fromtimestamp], [datetime.now]
      and [humanize.naturaltime] come with the environment [Env], the first
      two with the exceptions they raise; a datetime is its fields, and its
      order is the library's.
    - Logins and organization names are ASCII, so that a Python [str] and
      the byte strings used here have the same length. *)

From Stdlib Require Import String Ascii List ZArith Lia Bool Arith.
From Stdlib Require Import Permutation Sorted DecimalString.
Import ListNotations.

Local Open Scope string_scope.
Local Open Scope list_scope.

(** ** Requests, events and runs *)

(** [str(n)] for the integers the script interpolates into text. *)
Definition str_nat (n : nat) : string := NilEmpty.string_of_uint (Nat.to_uint n).
Definition str_Z (z : Z) : string := NilZero.string_of_int (Z.to_int z).

Inductive Request : Type :=
| RateLimit
| OrgMembers (org : string) (page : nat)
| UserEvents (username : string).

(** The f-strings that build the three URLs. *)
Definition url (r : Request) : string :=
  match r with
  | RateLimit => "https://api.github.com/rate_limit"
  | OrgMembers org page =>
      "https://api.github.com/orgs/" ++ org ++ "/members?page=" ++ str_nat page
        ++ "&per_page=100"
  | UserEvents username =>
      "https://api.github.com/users/" ++ username ++ "/events/public"
  end.

Inductive Event : Type :=
| Get (r : Request)
| Print (line : string).

Inductive Exn : Type := ValueError | TypeError | KeyError | OverflowError | OSError.

Inductive Outcome (A : Type) : Type :=
| Ret (a : A)
| Raise (e : Exn)
| OutOfFuel.

Arguments Ret {A} a.
Arguments Raise {A} e.
Arguments OutOfFuel {A}.

Definition M (A : Type) : Type := (list Event * Outcome A)%type.

Definition ret {A} (a : A) : M A := ([], Ret a).
Definition raise {A} (e : Exn) : M A := ([], Raise e).
Definition print (line : string) : M unit := ([Print line], Ret tt).

(** A library call that returns or raises. *)
Definition call {A} (r : Exn + A) : M A :=
  match r with
  | inl e => raise e
  | inr a => ret a
  end.

Definition bind {A B} (m : M A) (k : A -> M B) : M B :=
  match m with
  | (t, Ret a) => let (t', r) := k a in (t ++ t', r)
  | (t, Raise e) => (t, Raise e)
  | (t, OutOfFuel) => (t, OutOfFuel)
  end.

Declare Scope run_scope.
Delimit Scope run_scope with run.
Notation "x <- m ;; k" := (bind m (fun x => k))
  (at level 61, m at next level, right associativity) : run_scope.
Notation "m ;; k" := (bind m (fun _ => k))
  (at level 61, right associativity) : run_scope.
Local Open Scope run_scope.

Definition requests (t : list Event) : list Request :=
  flat_map (fun e => match e with Get r => [r] | Print _ => [] end) t.

Definition printed (t : list Event) : list string :=
  flat_map (fun e => match e with Get _ => [] | Print s => [s] end) t.

(** ** The platform *)

Record Response (A : Type) : Type := { status : Z; json : A }.
Arguments status {A} r.
Arguments json {A} r.

Record Member : Type := { login : string }.
Record PublicEvent : Type := { created_at : string }.
(** [rate_data["resources"]["core"]] *)
Record RateData : Type := { remaining : Z; reset : Z }.

Record ClientSession : Type := {
  rate_limit : Response RateData;
  org_members : string -> nat -> Response (list Member);
  user_events : string -> Response (list PublicEvent)
}.

(** [session.get(url, headers=headers)], one per endpoint. *)
Definition get_rate_limit (session : ClientSession) : M (Response RateData) :=
  ([Get RateLimit], Ret (rate_limit session)).
Definition get_members (session : ClientSession) (org : string) (page : nat)
  : M (Response (list Member)) :=
  ([Get (OrgMembers org page)], Ret (org_members session org page)).
Definition get_events (session : ClientSession) (username : string)
  : M (Response (list PublicEvent)) :=
  ([Get (UserEvents username)], Ret (user_events session username)).

(** ** get_org_members *)

(** The loop [for page in count(1)] from a given page on, with the members
    collected so far.  [count] never ends, so the loop is cut by [fuel]; a
    run that needs more pages than [fuel] ends in [OutOfFuel]. *)
Fixpoint get_org_members_from (fuel : nat) (session : ClientSession) (org : string)
    (page : nat) (members : list Member) : M (list Member) :=
  match fuel with
  | O => ([], OutOfFuel)
  | S fuel' =>
      response <- get_members session org page ;;
      if negb (status response =? 200)%Z then
        print ("[red]Error fetching members for " ++ org ++ ": "
                 ++ str_Z (status response) ++ "[/red]") ;;
        ret members
      else
        let page_members := json response in
        match page_members with
        | [] => ret members
        | _ :: _ =>
            get_org_members_from fuel' session org (S page) (members ++ page_members)
        end
  end.

Definition get_org_members (fuel : nat) (session : ClientSession) (org : string)
  : M (list Member) :=
  get_org_members_from fuel session org 1 [].

(** ** The mapping [all_members]

    A Python [dict] keeps its keys in insertion order, and the order in which
    the script walks the keys decides the order of the activity requests and
    of equal timestamps in the report.  The mapping is therefore a list of
    entries, each login at most once, new logins at the end. *)

Definition dict : Type := list (string * list string).

Definition dict_keys (d : dict) : list string := map fst d.

(** [key in d] *)
Fixpoint dict_contains (d : dict) (key : string) : bool :=
  match d with
  | [] => false
  | (k, _) :: rest => if String.eqb k key then true else dict_contains rest key
  end.

(** [d[key] = value] *)
Fixpoint dict_setitem (d : dict) (key : string) (value : list string) : dict :=
  match d with
  | [] => [(key, value)]
  | (k, v) :: rest =>
      if String.eqb k key then (k, value) :: rest
      else (k, v) :: dict_setitem rest key value
  end.

(** [d[key]]; a missing key is a [KeyError], which is [None] here. *)
Fixpoint dict_getitem (d : dict) (key : string) : option (list string) :=
  match d with
  | [] => None
  | (k, v) :: rest => if String.eqb k key then Some v else dict_getitem rest key
  end.

(** [d[key].append(x)]: the list stored under [key] grows in place.  The
    script only does this for a key it has just made sure of. *)
Fixpoint dict_append (d : dict) (key : string) (x : string) : dict :=
  match d with
  | [] => []
  | (k, v) :: rest =>
      if String.eqb k key then (k, v ++ [x]) :: rest
      else (k, v) :: dict_append rest key x
  end.

(** The body of [for member in members]. *)
Definition add_member (org : string) (all_members : dict) (member : Member) : dict :=
  let all_members :=
    if negb (dict_contains all_members (login member))
    then dict_setitem all_members (login member) []
    else all_members in
  dict_append all_members (login member) org.

(** [for org in orgs], on the organizations still to visit. *)
Fixpoint build_all_members (fuel : nat) (session : ClientSession)
    (orgs : list string) (all_members : dict) : M dict :=
  match orgs with
  | [] => ret all_members
  | org :: rest =>
      members <- get_org_members fuel session org ;;
      build_all_members fuel session rest (fold_left (add_member org) members all_members)
  end.

Definition orgs : list string :=
  [ "binder-examples"; "binderhub-ci-repos"; "ipython"; "jupyter"; "jupyter-book";
    "jupyter-governance"; "jupyter-incubator"; "jupyter-server"; "jupyter-standards";
    "jupyter-widgets"; "jupyterhub"; "jupyterlab"; "jupyter-xeus"; "jupytercon";
    "voila-dashboards"; "voila-gallery" ].

(** ** datetime

    The fields of a [datetime.datetime]; [tzinfo] is the offset from UTC in
    microseconds of an aware value and [None] for a naive one. *)

Record datetime : Type := {
  year : Z; month : Z; day : Z;
  hour : Z; minute : Z; second : Z; microsecond : Z;
  tzinfo : option Z
}.

Definition is_leap (y : Z) : bool :=
  ((y mod 4 =? 0) && (negb (y mod 100 =? 0) || (y mod 400 =? 0)))%Z.

Definition days_before_year (y : Z) : Z :=
  let y := (y - 1)%Z in (y * 365 + y / 4 - y / 100 + y / 400)%Z.

Definition days_in_month (y m : Z) : Z :=
  if (m =? 2)%Z then (if is_leap y then 29 else 28)%Z
  else if ((m =? 4) || (m =? 6) || (m =? 9) || (m =? 11))%Z then 30%Z
  else 31%Z.

Definition days_before_month (y m : Z) : Z :=
  fold_left (fun acc k => (acc + days_in_month y (Z.of_nat k))%Z)
            (seq 1 (Z.to_nat m - 1)) 0%Z.

Definition ymd2ord (y m d : Z) : Z :=
  (days_before_year y + days_before_month y m + d)%Z.

(** The wall-clock reading of [dt] as a count of microseconds. *)
Definition wall_clock (dt : datetime) : Z :=
  ((((ymd2ord (year dt) (month dt) (day dt) * 24 + hour dt) * 60 + minute dt) * 60
      + second dt) * 1000000 + microsecond dt)%Z.

Definition aware (dt : datetime) : bool :=
  match tzinfo dt with Some _ => true | None => false end.

(** What two datetimes of the same kind are compared by: the instant in UTC
    for aware values, the wall clock for naive ones. *)
Definition instant (dt : datetime) : Z :=
  match tzinfo dt with
  | Some offset => (wall_clock dt - offset)%Z
  | None => wall_clock dt
  end.

(** [a < b] on datetimes: a [TypeError] ([None]) between a naive and an
    aware value. *)
Definition datetime_lt (a b : datetime) : option bool :=
  if Bool.eqb (aware a) (aware b) then Some (instant a <? instant b)%Z else None.

(** The constructor's range checks. *)
Definition valid_datetime (dt : datetime) : bool :=
  ((1 <=? year dt) && (year dt <=? 9999) && (1 <=? month dt) && (month dt <=? 12)
   && (1 <=? day dt) && (day dt <=? days_in_month (year dt) (month dt))
   && (0 <=? hour dt) && (hour dt <=? 23) && (0 <=? minute dt) && (minute dt <=? 59)
   && (0 <=? second dt) && (second dt <=? 59)
   && (0 <=? microsecond dt) && (microsecond dt <=? 999999))%Z.

(** ** What the script takes from the Python runtime and its libraries *)

Record Env : Type := {
  (** [datetime.fromisoformat]; [None] is its [ValueError]. *)
  fromisoformat : string -> option datetime;
  (** [datetime.now(tz)]: the wall clock in zone [tz] ([None]: local time),
      in microseconds. *)
  now : option Z -> Z;
  (** [humanize.naturaltime] of a [timedelta] given in microseconds. *)
  naturaltime : Z -> string;
  (** [datetime.fromtimestamp]: the local time of an epoch, or the
      [ValueError], [OverflowError] or [OSError] of an epoch out of range. *)
  fromtimestamp : Z -> Exn + datetime;
  (** [humanize.naturaltime] of a datetime. *)
  naturaltime_of_datetime : datetime -> string
}.

(** ** get_user_activity *)

(** [s.replace(old, new)] for a one-character [old]. *)
Fixpoint replace (old : ascii) (new : string) (s : string) : string :=
  match s with
  | EmptyString => EmptyString
  | String c rest =>
      if Ascii.eqb c old then new ++ replace old new rest
      else String c (replace old new rest)
  end.

Definition get_user_activity (env : Env) (session : ClientSession) (username : string)
  : M (option datetime) :=
  response <- get_events session username ;;
  if (status response =? 200)%Z then
    let events := json response in
    match events with
    | events_0 :: _ =>
        match fromisoformat env (replace "Z" "+00:00" (created_at events_0)) with
        | Some last_activity => ret (Some last_activity)
        | None => raise ValueError
        end
    | [] => ret None
    end
  else ret None.

(** ** asyncio.gather

    Every task is launched, in the order given, and the results come back in
    that same order.  The events of a task are recorded when it is launched.
    If a task raises, [gather] raises. *)
Fixpoint gather {A} (tasks : list (M A)) : M (list A) :=
  match tasks with
  | [] => ret []
  | task :: rest =>
      let (t, r) := task in
      let (t', rs) := gather rest in
      (t ++ t',
       match r, rs with
       | Ret a, Ret l => Ret (a :: l)
       | Ret _, Raise e => Raise e
       | Ret _, OutOfFuel => OutOfFuel
       | Raise e, _ => Raise e
       | OutOfFuel, _ => OutOfFuel
       end)
  end.

(** ** The report *)

(** [(username, last_activity, all_members[username])] *)
Definition Row : Type := (string * datetime * list string)%type.

Definition username_of (x : Row) : string := fst (fst x).
(** [key=lambda x: x[1]] *)
Definition last_activity_of (x : Row) : datetime := snd (fst x).
Definition orgs_of (x : Row) : list string := snd x.

(** [for (username, _), last_activity in zip(tasks, results)] *)
Fixpoint user_activities_loop (all_members : dict)
    (zipped : list ((string * M (option datetime)) * option datetime))
    (user_activities : list Row) : M (list Row) :=
  match zipped with
  | [] => ret user_activities
  | ((username, _), Some last_activity) :: rest =>
      match dict_getitem all_members username with
      | Some user_orgs =>
          user_activities_loop all_members rest
            (user_activities ++ [(username, last_activity, user_orgs)])
      | None => raise KeyError
      end
  | (_, None) :: rest => user_activities_loop all_members rest user_activities
  end.

(** [sorted(user_activities, key=..., reverse=True)].

    With [reverse=True] the list is reversed, sorted in ascending order by a
    stable sort that only asks [<] of the keys, and reversed again, so that
    rows with equal keys keep their order.  Every stable sort gives the same
    list; insertion sort is used here.  The keys are datetimes, and a [<]
    between a naive and an aware one raises [TypeError] ([None] below); a
    sort cannot place both kinds without asking across them. *)
Fixpoint insert (x : Row) (l : list Row) : option (list Row) :=
  match l with
  | [] => Some [x]
  | y :: rest =>
      match datetime_lt (last_activity_of y) (last_activity_of x) with
      | Some true => option_map (cons y) (insert x rest)
      | Some false => Some (x :: l)
      | None => None
      end
  end.

Fixpoint sort (l : list Row) : option (list Row) :=
  match l with
  | [] => Some []
  | x :: rest =>
      match sort rest with
      | Some sorted_rest => insert x sorted_rest
      | None => None
      end
  end.

Definition sorted_reverse (l : list Row) : M (list Row) :=
  match sort (rev l) with
  | Some ascending_rows => ret (rev ascending_rows)
  | None => raise TypeError
  end.

(** [f"{s:<width}"] *)
Definition ljust (width : nat) (s : string) : string :=
  s ++ string_of_list_ascii (repeat " "%char (width - String.length s)).

(** [sep.join(l)] *)
Fixpoint join (sep : string) (l : list string) : string :=
  match l with
  | [] => ""
  | [x] => x
  | x :: rest => x ++ sep ++ join sep rest
  end.

Definition report_line (env : Env) (row : Row) : string :=
  let '(username, last_activity, user_orgs) := row in
  let last_activity_ago :=
    naturaltime env (now env (tzinfo last_activity) - wall_clock last_activity)%Z in
  let orgs_str := join ", " user_orgs in
  ljust 20 username ++ ": Last activity " ++ last_activity_ago
    ++ " in orgs: " ++ orgs_str.

Fixpoint print_rows (env : Env) (rows : list Row) : M unit :=
  match rows with
  | [] => ret tt
  | row :: rest => print (report_line env row) ;; print_rows env rest
  end.

(** ** main *)

(** The tasks, one per key of the mapping, in the mapping's order. *)
Definition make_tasks (env : Env) (session : ClientSession) (all_members : dict)
  : list (string * M (option datetime)) :=
  map (fun username => (username, get_user_activity env session username))
      (dict_keys all_members).

(** From [all_members = {}] to the end of the loop that fills
    [user_activities]. *)
Definition gather_user_activities (fuel : nat) (env : Env) (session : ClientSession)
  : M (list Row) :=
  all_members <- build_all_members fuel session orgs [] ;;
  let tasks := make_tasks env session all_members in
  results <- gather (map snd tasks) ;;
  user_activities_loop all_members (combine tasks results) [].

(** The last loop: sort, then one line per row. *)
Definition report (env : Env) (user_activities : list Row) : M unit :=
  rows <- sorted_reverse user_activities ;;
  print_rows env rows.

(** Everything below the rate-limit check. *)
Definition main_after_check (fuel : nat) (env : Env) (session : ClientSession) : M unit :=
  user_activities <- gather_user_activities fuel env session ;;
  report env user_activities.

Definition main (fuel : nat) (env : Env) (session : ClientSession) : M unit :=
  response <- get_rate_limit session ;;
  if (status response =? 200)%Z then
    let rate_data := json response in
    let remaining := remaining rate_data in
    reset_time <- call (fromtimestamp env (reset rate_data)) ;;
    let reset_in := naturaltime_of_datetime env reset_time in
    print ("Rate limit remaining: " ++ str_Z remaining) ;;
    print ("Rate limit resets " ++ reset_in) ;;
    if (remaining <? 100)%Z then
      print ("[yellow]Warning: Low rate limit (" ++ str_Z remaining
               ++ " remaining)[/yellow]") ;;
      if (remaining <? 10)%Z then
        print "[red]Aborting due to very low rate limit[/red]" ;;
        ret tt
      else main_after_check fuel env session
    else main_after_check fuel env session
  else main_after_check fuel env session.

(** ** Timestamps as text

    The platform writes an instant as [YYYY-MM-DDTHH:MM:SSZ].
    [datetime.isoformat()] writes the same aware UTC instant with [+00:00]
    in place of the [Z], and [fromisoformat] is documented as its inverse. *)

Definition digit_char (d : Z) : ascii := ascii_of_nat (48 + Z.to_nat d).

Definition two_digits (n : Z) : string :=
  String (digit_char (n / 10)) (String (digit_char (n mod 10)) "").

Definition four_digits (n : Z) : string :=
  String (digit_char (n / 1000)) (String (digit_char (n / 100 mod 10))
    (String (digit_char (n / 10 mod 10)) (String (digit_char (n mod 10)) ""))).

Definition isoformat_seconds (dt : datetime) : string :=
  four_digits (year dt) ++ "-" ++ two_digits (month dt) ++ "-" ++ two_digits (day dt)
    ++ "T" ++ two_digits (hour dt) ++ ":" ++ two_digits (minute dt) ++ ":"
    ++ two_digits (second dt).

Definition github_timestamp (dt : datetime) : string := isoformat_seconds dt ++ "Z".

Definition utc_isoformat (dt : datetime) : string := isoformat_seconds dt ++ "+00:00".

(** An aware UTC datetime on a whole second. *)
Definition utc_seconds (dt : datetime) : bool :=
  valid_datetime dt && (microsecond dt =? 0)%Z
  && match tzinfo dt with Some 0%Z => true | _ => false end.

(** [fromisoformat] undoes [isoformat] on such datetimes. *)
Definition inverts_isoformat (env : Env) : Prop :=
  forall dt, utc_seconds dt = true -> fromisoformat env (utc_isoformat dt) = Some dt.

(** A parser for [YYYY-MM-DD*HH:MM:SS] with an optional [+HH:MM] or [-HH:MM],
    the part of the format every version of the library reads alike.  It
    stands for [fromisoformat] where a concrete one is needed. *)
Definition digit_value (c : ascii) : option Z :=
  let n := nat_of_ascii c in
  if (48 <=? n)%nat && (n <=? 57)%nat then Some (Z.of_nat (n - 48)) else None.

Fixpoint number_from (acc : Z) (cs : list ascii) : option Z :=
  match cs with
  | [] => Some acc
  | c :: rest =>
      match digit_value c with
      | Some d => number_from (acc * 10 + d) rest
      | None => None
      end
  end.

Definition number (cs : list ascii) : option Z := number_from 0 cs.

Definition parse_offset (cs : list ascii) : option (option Z) :=
  match cs with
  | [] => Some None
  | [sign; h1; h2; colon; m1; m2] =>
      match number [h1; h2], number [m1; m2] with
      | Some h, Some m =>
          if Ascii.eqb colon ":" && (h <? 24)%Z && (m <? 60)%Z then
            let offset := ((h * 60 + m) * 60 * 1000000)%Z in
            if Ascii.eqb sign "+" then Some (Some offset)
            else if Ascii.eqb sign "-" then Some (Some (- offset)%Z)
            else None
          else None
      | _, _ => None
      end
  | _ => None
  end.

Definition parse_isoformat (s : string) : option datetime :=
  match list_ascii_of_string s with
  | y1 :: y2 :: y3 :: y4 :: dash1 :: mo1 :: mo2 :: dash2 :: d1 :: d2 :: _
      :: h1 :: h2 :: colon1 :: mi1 :: mi2 :: colon2 :: s1 :: s2 :: tz =>
      match number [y1; y2; y3; y4], number [mo1; mo2], number [d1; d2],
            number [h1; h2], number [mi1; mi2], number [s1; s2], parse_offset tz with
      | Some y, Some mo, Some d, Some h, Some mi, Some sec, Some offset =>
          let dt := {| year := y; month := mo; day := d; hour := h; minute := mi;
                       second := sec; microsecond := 0; tzinfo := offset |} in
          if Ascii.eqb dash1 "-" && Ascii.eqb dash2 "-" && Ascii.eqb colon1 ":"
             && Ascii.eqb colon2 ":" && valid_datetime dt
          then Some dt else None
      | _, _, _, _, _, _, _ => None
      end
  | _ => None
  end.

(** The date of a day counted from 1970-01-01. *)
Definition civil_from_days (days : Z) : Z * Z * Z :=
  let z := (days + 719468)%Z in
  let era := (z / 146097)%Z in
  let doe := (z - era * 146097)%Z in
  let yoe := ((doe - doe / 1460 + doe / 36524 - doe / 146096) / 365)%Z in
  let doy := (doe - (365 * yoe + yoe / 4 - yoe / 100))%Z in
  let mp := ((5 * doy + 2) / 153)%Z in
  let d := (doy - (153 * mp + 2) / 5 + 1)%Z in
  let m := (if mp <? 10 then mp + 3 else mp - 9)%Z in
  let y := (yoe + era * 400 + (if m <=? 2 then 1 else 0))%Z in
  (y, m, d).

(** [fromtimestamp] where local time is UTC: the naive datetime of an epoch
    in the years 1 to 9999, [ValueError] outside. *)
Definition utc_fromtimestamp (t : Z) : Exn + datetime :=
  if ((-62135596800 <=? t) && (t <? 253402300800))%Z then
    let '(y, m, d) := civil_from_days (t / 86400) in
    let s := (t mod 86400)%Z in
    inr {| year := y; month := m; day := d; hour := s / 3600; minute := s / 60 mod 60;
           second := s mod 60; microsecond := 0; tzinfo := None |}
  else inl ValueError.

(** An environment to run examples in: the parser above, a clock stopped at
    2024-06-01 00:00:00 in every zone, UTC as the local zone, and plain
    renderings of durations and datetimes. *)
Definition sample_env : Env := {|
  fromisoformat := parse_isoformat;
  now := fun _ => (ymd2ord 2024 6 1 * 86400 * 1000000)%Z;
  naturaltime := fun delta => (str_Z (delta / 1000000) ++ " seconds ago")%string;
  fromtimestamp := utc_fromtimestamp;
  naturaltime_of_datetime := fun dt => ("at " ++ isoformat_seconds dt)%string
|}.

(** No character of [s] is [old]. *)
Fixpoint free_of (old : ascii) (s : string) : bool :=
  match s with
  | EmptyString => true
  | String c rest => negb (Ascii.eqb c old) && free_of old rest
  end.

(** An aware UTC datetime on a whole second. *)
Definition utc (y mo d h mi s : Z) : datetime :=
  {| year := y; month := mo; day := d; hour := h; minute := mi; second := s;
     microsecond := 0; tzinfo := Some 0%Z |}.

(** ** The module body

    What runs when the script is started: the token is read from the
    environment ([None]: the variable is not set), a missing or empty token
    ends the process with [exit(1)] before [main] is entered, and otherwise
    [asyncio.run(main())] runs.  The headers go with every request; the
    events of a run do not repeat them. *)

Inductive Exit : Type :=
| SystemExit (code : Z)
| Completed (end_of_main : Outcome unit).

(** [not token] *)
Definition not_token (token : option string) : bool :=
  match token with
  | None => true
  | Some EmptyString => true
  | Some (String _ _) => false
  end.

Definition headers (token : string) : list (string * string) :=
  [ ("Authorization", ("token " ++ token)%string);
    ("Accept", "application/vnd.github.v3+json") ].

Definition script (token : option string) (fuel : nat) (env : Env)
    (session : ClientSession) : list Event * Exit :=
  if not_token token then
    ([Print "[red]Error: GH_TOKEN environment variable not set[/red]"], SystemExit 1)
  else
    let (t, end_of_main) := main fuel env session in
    (t, Completed end_of_main).

(** * The vocabulary of the properties *)

(** ** Pagination *)

(** The requests for [n] pages from page [first] on, and what those pages
    hold. *)
Definition page_requests (org : string) (first n : nat) : list Event :=
  map (fun page => Get (OrgMembers org page)) (seq first n).

Definition pages (session : ClientSession) (org : string) (first n : nat) : list Member :=
  concat (map (fun page => json (org_members session org page)) (seq first n)).

(** A page that the loop reads and goes past. *)
Definition full_page (session : ClientSession) (org : string) (page : nat) : Prop :=
  status (org_members session org page) = 200%Z
  /\ json (org_members session org page) <> [].

Definition error_line (org : string) (code : Z) : string :=
  "[red]Error fetching members for " ++ org ++ ": " ++ str_Z code ++ "[/red]".

(** ** The mapping *)

(** The stored list, empty for a login not yet seen. *)
Definition orgs_so_far (d : dict) (username : string) : list string :=
  match dict_getitem d username with Some l => l | None => [] end.

Definition is_login (username : string) (member : Member) : bool :=
  String.eqb (login member) username.

(** What [get_org_members] returned for an organization. *)
Definition enumerated (fuel : nat) (session : ClientSession) (org : string) : list Member :=
  match snd (get_org_members fuel session org) with
  | Ret members => members
  | _ => []
  end.

(** The organizations that add themselves to a login's list, once for every
    occurrence of the login in their enumeration. *)
Definition listings (fuel : nat) (session : ClientSession) (username : string)
    (configured : list string) : list string :=
  flat_map (fun org => map (fun _ => org)
                         (filter (is_login username) (enumerated fuel session org)))
           configured.

(** C1 as the specification states it: whenever two or more organizations
    list a username, its list holds exactly those organizations, each once. *)
Definition lists_each_org_once_always : Prop :=
  forall fuel session t all_members username,
    build_all_members fuel session orgs [] = (t, Ret all_members) ->
    (exists org1 org2,
        org1 <> org2 /\ In org1 orgs /\ In org2 orgs
        /\ In username (map login (enumerated fuel session org1))
        /\ In username (map login (enumerated fuel session org2))) ->
    exists l,
      dict_getitem all_members username = Some l
      /\ NoDup l
      /\ forall org, In org l
                     <-> In org orgs /\ In username (map login (enumerated fuel session org)).

(** A key goes to the end of the keys unless it is there already. *)
Definition add_key (keys : list string) (key : string) : list string :=
  if in_dec string_dec key keys then keys else keys ++ [key].

(** ** The activity requests and the report *)

(** How the lookup for one username ends. *)
Definition last_activity (env : Env) (session : ClientSession) (username : string)
  : Outcome (option datetime) :=
  snd (get_user_activity env session username).

Definition has_activity (env : Env) (session : ClientSession) (username : string) : bool :=
  match last_activity env session username with
  | Ret (Some _) => true
  | _ => false
  end.

Definition tasks_for (env : Env) (session : ClientSession) (usernames : list string)
  : list (string * M (option datetime)) :=
  map (fun username => (username, get_user_activity env session username)) usernames.

Definition event_requests (usernames : list string) : list Event :=
  map (fun username => Get (UserEvents username)) usernames.

(** What the loop over [zip(tasks, results)] adds: a row for every username
    with an activity, in the order of the usernames. *)
Definition row_recorded (env : Env) (session : ClientSession) (d : dict) (row : Row) : Prop :=
  last_activity env session (username_of row) = Ret (Some (last_activity_of row))
  /\ dict_getitem d (username_of row) = Some (orgs_of row).

(** Insertion sort by instant, for lists whose datetimes can be compared. *)
Fixpoint insert_by_instant (x : Row) (l : list Row) : list Row :=
  match l with
  | [] => [x]
  | y :: rest =>
      if (instant (last_activity_of y) <? instant (last_activity_of x))%Z
      then y :: insert_by_instant x rest
      else x :: l
  end.

Definition sort_by_instant (l : list Row) : list Row := fold_right insert_by_instant [] l.

Definition ascending (a b : Row) : Prop :=
  (instant (last_activity_of a) <= instant (last_activity_of b))%Z.

(** Most recent first. *)
Definition descending (a b : Row) : Prop :=
  (instant (last_activity_of b) <= instant (last_activity_of a))%Z.

(** The rows whose timestamp is the instant [k]. *)
Definition at_instant (k : Z) (l : list Row) : list Row :=
  filter (fun x => (instant (last_activity_of x) =? k)%Z) l.

(** The run below the rate-limit check gathered [user_activities] and
    printed the rows [rows], one line each, as its last events. *)
Definition report_of (fuel : nat) (env : Env) (session : ClientSession)
    (user_activities rows : list Row) : Prop :=
  exists t0,
    gather_user_activities fuel env session = (t0, Ret user_activities)
    /\ sorted_reverse user_activities = ret rows
    /\ main_after_check fuel env session
       = (t0 ++ map (fun row => Print (report_line env row)) rows, Ret tt).

Definition org_request (r : Request) : Prop :=
  match r with OrgMembers _ _ => True | _ => False end.

(** ** What a run leaves to the event loop and to the sort

    [asyncio.gather] starts the tasks in the order given, but they complete
    in an order that the event loop and the network decide: [schedule]
    lists the positions of the tasks in order of completion.  Each result is
    stored at the position of its task, and the first exception in order of
    completion is the one raised.  [sorted] is known by its contract: the
    result is in order, and elements with equal keys keep their order. *)

Definition completions {A} (schedule : list nat) (outcomes : list (Outcome A))
  : list (nat * Outcome A) :=
  flat_map (fun i => match nth_error outcomes i with
                     | Some o => [(i, o)]
                     | None => []
                     end) schedule.

(** The end of the first task, in order of completion, that did not return. *)
Fixpoint first_failure {A B} (done : list (nat * Outcome A)) : option (Outcome B) :=
  match done with
  | [] => None
  | (_, Ret _) :: rest => first_failure rest
  | (_, Raise e) :: _ => Some (Raise e)
  | (_, OutOfFuel) :: _ => Some OutOfFuel
  end.

(** The result stored for the task at position [i]. *)
Fixpoint result_at {A} (done : list (nat * Outcome A)) (i : nat) : option A :=
  match done with
  | [] => None
  | (j, o) :: rest =>
      if Nat.eqb j i then match o with Ret a => Some a | _ => None end
      else result_at rest i
  end.

Definition gather_completing {A} (schedule : list nat) (tasks : list (M A)) : M (list A) :=
  let done := completions schedule (map snd tasks) in
  (concat (map fst tasks),
   match first_failure done with
   | Some failure => failure
   | None =>
       Ret (flat_map (fun i => match result_at done i with
                               | Some a => [a]
                               | None => []
                               end) (seq 0 (length tasks)))
   end).

(** The contract of [sorted(input, key=..., reverse=True)] on the rows. *)
Definition sorted_by_contract (input output : list Row) : Prop :=
  StronglySorted descending output
  /\ forall k, at_instant k output = at_instant k input.

(** ** Two platforms that answer alike *)

(** [s1] and [s2] give the same response to the request [r]. *)
Definition agree (s1 s2 : ClientSession) (r : Request) : Prop :=
  match r with
  | RateLimit => rate_limit s1 = rate_limit s2
  | OrgMembers org page => org_members s1 org page = org_members s2 org page
  | UserEvents username => user_events s1 username = user_events s2 username
  end.

(** They do so on every request of a run. *)
Definition agree_on (s1 s2 : ClientSession) {A} (m : M A) : Prop :=
  forall r, In r (requests (fst m)) -> agree s1 s2 r.

(** ** Sample platforms *)

Definition ok {A} (body : A) : Response A := {| status := 200; json := body |}.
Definition failed {A} (code : Z) (body : A) : Response A := {| status := code; json := body |}.
Definition member (name : string) : Member := {| login := name |}.
Definition event_at (timestamp : string) : PublicEvent := {| created_at := timestamp |}.

(** Two organizations have members; the second fails on its second page. *)
Definition sample_session : ClientSession := {|
  rate_limit := ok {| remaining := 5000; reset := 1717200000 |};
  org_members := fun org page =>
    if String.eqb org "ipython" then
      match page with
      | 1 => ok [member "alice"; member "bob"]
      | 2 => ok [member "carol"]
      | _ => ok []
      end
    else if String.eqb org "jupyter" then
      match page with
      | 1 => ok [member "bob"; member "dave"]
      | 2 => failed 502 []
      | _ => ok []
      end
    else ok [];
  user_events := fun username =>
    if String.eqb username "alice" then ok []
    else if String.eqb username "bob" then
      ok [event_at "2024-05-02T03:04:05Z"; event_at "2024-05-30T00:00:00Z"]
    else if String.eqb username "carol" then ok [event_at "2024-05-20T10:00:00Z"]
    else failed 404 []
|}.

Definition with_rate_limit (r : Response RateData) (session : ClientSession)
  : ClientSession :=
  {| rate_limit := r; org_members := org_members session;
     user_events := user_events session |}.

(** A login that comes back on two pages of one organization. *)
Definition repeating_session : ClientSession := {|
  rate_limit := ok {| remaining := 5000; reset := 1717200000 |};
  org_members := fun org page =>
    if String.eqb org "ipython" then
      match page with
      | 1 => ok [member "alice"]
      | 2 => ok [member "alice"]
      | _ => ok []
      end
    else if String.eqb org "jupyter" then
      match page with
      | 1 => ok [member "alice"]
      | _ => ok []
      end
    else ok [];
  user_events := fun _ => ok []
|}.

(** One organization, three members, the first and the last active at the
    same instant. *)
Definition tied_session : ClientSession := {|
  rate_limit := ok {| remaining := 5000; reset := 1717200000 |};
  org_members := fun org page =>
    if String.eqb org "ipython" then
      match page with
      | 1 => ok [member "alice"; member "bob"; member "carol"]
      | _ => ok []
      end
    else ok [];
  user_events := fun username =>
    if String.eqb username "bob" then ok [event_at "2024-05-09T00:00:00Z"]
    else ok [event_at "2024-05-01T00:00:00Z"]
|}.

Definition tied_user_activities : list Row :=
  [ ("alice", utc 2024 5 1 0 0 0, ["ipython"]);
    ("bob", utc 2024 5 9 0 0 0, ["ipython"]);
    ("carol", utc 2024 5 1 0 0 0, ["ipython"]) ].

Definition tied_rows : list Row :=
  [ ("bob", utc 2024 5 9 0 0 0, ["ipython"]);
    ("alice", utc 2024 5 1 0 0 0, ["ipython"]);
    ("carol", utc 2024 5 1 0 0 0, ["ipython"]) ].

(** The mapping the sample platform leads to. *)
Definition sample_all_members : dict :=
  [ ("alice", ["ipython"]); ("bob", ["ipython"; "jupyter"]); ("carol", ["ipython"]);
    ("dave", ["jupyter"]) ].

Definition sample_user_activities : list Row :=
  [ ("bob", utc 2024 5 2 3 4 5, ["ipython"; "jupyter"]);
    ("carol", utc 2024 5 20 10 0 0, ["ipython"]) ].

Definition sample_rows : list Row :=
  [ ("carol", utc 2024 5 20 10 0 0, ["ipython"]);
    ("bob", utc 2024 5 2 3 4 5, ["ipython"; "jupyter"]) ].

(** A platform that differs from the sample one only where the run never
    asks. *)
Definition other_session : ClientSession := {|
  rate_limit := rate_limit sample_session;
  org_members := fun org page =>
    if String.eqb org "ipython" && Nat.eqb page 9 then ok [member "zed"]
    else org_members sample_session org page;
  user_events := fun username =>
    if String.eqb username "zed" then ok [event_at "2024-01-01T00:00:00Z"]
    else user_events sample_session username
|}.

(** Every user has one event, stamped without [Z] and without offset. *)
Definition naive_session : ClientSession := {|
  rate_limit := ok {| remaining := 5000; reset := 1717200000 |};
  org_members := fun _ _ => ok [];
  user_events := fun _ => ok [event_at "2024-05-02T03:04:05"]
|}.

(** C6 as the specification states it: every successful lookup with an
    event gives the first event's instant, and an aware one. *)
Definition first_event_always_aware : Prop :=
  forall env session username events_0 rest,
    inverts_isoformat env ->
    status (user_events session username) = 200%Z ->
    json (user_events session username) = events_0 :: rest ->
    exists last_seen,
      get_user_activity env session username
      = ([Get (UserEvents username)], Ret (Some last_seen))
      /\ aware last_seen = true.

(** Every page of every organization holds one member: the listing never
    ends. *)
Definition endless_session : ClientSession := {|
  rate_limit := ok {| remaining := 5000; reset := 1717200000 |};
  org_members := fun _ _ => ok [member "alice"];
  user_events := fun _ => ok []
|}.

(** One member, whose latest event carries no timestamp the parser reads. *)
Definition malformed_session : ClientSession := {|
  rate_limit := ok {| remaining := 5000; reset := 1717200000 |};
  org_members := fun org page =>
    if String.eqb org "ipython" then
      match page with
      | 1 => ok [member "alice"; member "bob"]
      | _ => ok []
      end
    else ok [];
  user_events := fun username =>
    if String.eqb username "alice" then ok [event_at "yesterday"]
    else ok [event_at "2024-05-01T00:00:00Z"]
|}.

(** No organization has a member. *)
Definition empty_session : ClientSession := {|
  rate_limit := ok {| remaining := 5000; reset := 1717200000 |};
  org_members := fun org page =>
    if String.eqb org "jupyter" then failed 404 [] else ok [];
  user_events := fun _ => ok []
|}.

(** A naive datetime: no offset. *)
Definition naive (y mo d h mi s : Z) : datetime :=
  {| year := y; month := mo; day := d; hour := h; minute := mi; second := s;
     microsecond := 0; tzinfo := None |}.

(** A parser that, unlike the sample one, also reads a trailing [Z]. *)
Definition parse_isoformat_or_Z (s : string) : option datetime :=
  match parse_isoformat s with
  | Some dt => Some dt
  | None => parse_isoformat (replace "Z" "+00:00" s)
  end.

Definition sample_env_reading_Z : Env := {|
  fromisoformat := parse_isoformat_or_Z;
  now := now sample_env;
  naturaltime := naturaltime sample_env;
  fromtimestamp := fromtimestamp sample_env;
  naturaltime_of_datetime := naturaltime_of_datetime sample_env
|}.

(** * Properties *)

(** ** Runs *)

Lemma bind_ret_l {A B} (a : A) (k : A -> M B) : bind (ret a) k = k a.
Proof. unfold bind, ret. destruct (k a). reflexivity. Qed.

Lemma bind_event {B} (e : Event) {A} (a : A) (k : A -> M B) :
  bind ([e], Ret a) k = (e :: fst (k a), snd (k a)).
Proof. unfold bind. destruct (k a). reflexivity. Qed.

Lemma bind_run {A B} (t : list Event) (a : A) (k : A -> M B) :
  bind (t, Ret a) k = (t ++ fst (k a), snd (k a)).
Proof. unfold bind. destruct (k a). reflexivity. Qed.

Lemma bind_Ret_inv {A B} (m : M A) (k : A -> M B) t (b : B) :
  bind m k = (t, Ret b) ->
  exists t1 a t2, m = (t1, Ret a) /\ k a = (t2, Ret b) /\ t = t1 ++ t2.
Proof.
  destruct m as [t1 [a | e | ]]; simpl; try discriminate.
  destruct (k a) as [t2 r] eqn:Hk. intros H. inversion H; subst.
  exists t1, a, t2. auto.
Qed.

Lemma requests_app t1 t2 : requests (t1 ++ t2) = requests t1 ++ requests t2.
Proof. unfold requests. apply flat_map_app. Qed.

Lemma requests_gets (rs : list Request) : requests (map Get rs) = rs.
Proof. induction rs as [| r rs IH]; simpl; [reflexivity | now rewrite IH]. Qed.

Lemma requests_prints (ls : list string) : requests (map Print ls) = [].
Proof. induction ls as [| l ls IH]; simpl; [reflexivity | exact IH]. Qed.

(** ** Pagination *)

Lemma get_org_members_from_full_pages session org n :
  forall fuel page members,
    (forall p, page <= p < page + n -> full_page session org p) ->
    get_org_members_from (n + fuel) session org page members =
      (page_requests org page n
         ++ fst (get_org_members_from fuel session org (page + n)
                   (members ++ pages session org page n)),
       snd (get_org_members_from fuel session org (page + n)
              (members ++ pages session org page n))).
Proof.
  induction n as [| n IH]; intros fuel page members Hfull.
  - unfold page_requests, pages. simpl.
    rewrite Nat.add_0_r, app_nil_r.
    destruct (get_org_members_from fuel session org page members); reflexivity.
  - destruct (Hfull page ltac:(lia)) as [Hstatus Hbody].
    cbn [Nat.add get_org_members_from]. unfold get_members. rewrite bind_event.
    rewrite Hstatus. cbn [Z.eqb Pos.eqb negb].
    destruct (json (org_members session org page)) as [| m ms] eqn:Hjson;
      [congruence |].
    rewrite IH by (intros p Hp; apply Hfull; lia).
    unfold page_requests, pages. cbn [seq map concat fst snd].
    rewrite Hjson, <- !app_assoc, Nat.add_succ_r. reflexivity.
Qed.

Lemma page_requests_snoc org first n :
  page_requests org first (S n) = page_requests org first n ++ [Get (OrgMembers org (first + n))].
Proof. unfold page_requests. rewrite seq_S, map_app. reflexivity. Qed.

Lemma requests_page_requests org first n :
  requests (page_requests org first n) = map (OrgMembers org) (seq first n).
Proof.
  unfold page_requests. rewrite <- (requests_gets (map _ (seq first n))).
  now rewrite map_map.
Qed.

(** The loop stops at an empty page with what it has. *)
Lemma get_org_members_stops_at_empty_page session org n fuel :
  (forall p, 1 <= p <= n -> full_page session org p) ->
  status (org_members session org (S n)) = 200%Z ->
  json (org_members session org (S n)) = [] ->
  n < fuel ->
  get_org_members fuel session org = (page_requests org 1 (S n), Ret (pages session org 1 n)).
Proof.
  intros Hfull Hstatus Hempty Hfuel. unfold get_org_members.
  replace fuel with (n + S (fuel - S n)) by lia.
  rewrite get_org_members_from_full_pages by (intros p Hp; apply Hfull; lia).
  cbn [get_org_members_from Nat.add]. unfold get_members. rewrite bind_event.
  rewrite Hstatus, Hempty. cbn [Z.eqb Pos.eqb negb ret fst snd].
  rewrite page_requests_snoc. reflexivity.
Qed.

(** The loop stops at a failed page with what it has, and says so. *)
Lemma get_org_members_stops_at_error session org n fuel :
  (forall p, 1 <= p <= n -> full_page session org p) ->
  status (org_members session org (S n)) <> 200%Z ->
  n < fuel ->
  get_org_members fuel session org =
    (page_requests org 1 (S n)
       ++ [Print (error_line org (status (org_members session org (S n))))],
     Ret (pages session org 1 n)).
Proof.
  intros Hfull Hstatus Hfuel. unfold get_org_members.
  replace fuel with (n + S (fuel - S n)) by lia.
  rewrite get_org_members_from_full_pages by (intros p Hp; apply Hfull; lia).
  cbn [get_org_members_from Nat.add]. unfold get_members. rewrite bind_event.
  apply Z.eqb_neq in Hstatus. rewrite Hstatus. cbn [negb].
  unfold print. rewrite bind_event. cbn [ret fst snd].
  rewrite page_requests_snoc, <- app_assoc. reflexivity.
Qed.

(** ** The mapping *)

Lemma dict_contains_getitem d key :
  dict_contains d key = match dict_getitem d key with Some _ => true | None => false end.
Proof.
  induction d as [| [k v] d IH]; simpl; [reflexivity |].
  destruct (String.eqb k key); [reflexivity | exact IH].
Qed.

Lemma dict_contains_keys d key : dict_contains d key = true <-> In key (dict_keys d).
Proof.
  induction d as [| [k v] d IH]; simpl; [split; [discriminate | tauto] |].
  destruct (String.eqb_spec k key) as [-> | Hne]; [tauto |].
  rewrite IH. split; [tauto | intros [H | H]; [congruence | exact H]].
Qed.

Lemma dict_keys_setitem_new d key value :
  dict_contains d key = false -> dict_keys (dict_setitem d key value) = dict_keys d ++ [key].
Proof.
  induction d as [| [k v] d IH]; simpl; [reflexivity |].
  destruct (String.eqb k key); [discriminate |].
  intros H. simpl. now rewrite IH.
Qed.

Lemma dict_keys_append d key x : dict_keys (dict_append d key x) = dict_keys d.
Proof.
  induction d as [| [k v] d IH]; simpl; [reflexivity |].
  destruct (String.eqb k key); simpl; [reflexivity | now rewrite IH].
Qed.

Lemma dict_getitem_setitem d key value k :
  dict_getitem (dict_setitem d key value) k =
    if String.eqb key k then Some value else dict_getitem d k.
Proof.
  induction d as [| [k' v] d IH]; simpl.
  - reflexivity.
  - destruct (String.eqb_spec k' key) as [-> | Hne]; simpl.
    + destruct (String.eqb key k); reflexivity.
    + rewrite IH. destruct (String.eqb_spec k' k) as [-> | Hne']; [| reflexivity].
      destruct (String.eqb_spec key k); [congruence | reflexivity].
Qed.

Lemma dict_getitem_append d key x k :
  dict_getitem (dict_append d key x) k =
    if String.eqb key k
    then match dict_getitem d k with Some l => Some (l ++ [x]) | None => None end
    else dict_getitem d k.
Proof.
  induction d as [| [k' v] d IH]; simpl.
  - destruct (String.eqb key k); reflexivity.
  - destruct (String.eqb_spec k' key) as [-> | Hne]; simpl.
    + destruct (String.eqb key k); reflexivity.
    + rewrite IH. destruct (String.eqb_spec k' k) as [-> | Hne']; [| reflexivity].
      destruct (String.eqb_spec key k); [congruence | reflexivity].
Qed.

(** One member more: its login's list grows by the organization, every other
    entry stays. *)
Lemma dict_getitem_add_member org d member k :
  dict_getitem (add_member org d member) k =
    if is_login k member then Some (orgs_so_far d k ++ [org]) else dict_getitem d k.
Proof.
  unfold add_member, is_login, orgs_so_far.
  rewrite dict_getitem_append, dict_contains_getitem.
  destruct (String.eqb_spec (login member) k) as [<- | Hne].
  - destruct (dict_getitem d (login member)) as [l |] eqn:Hget; cbn [negb].
    + now rewrite Hget.
    + rewrite dict_getitem_setitem, String.eqb_refl. reflexivity.
  - destruct (dict_getitem d (login member)); cbn [negb]; [reflexivity |].
    rewrite dict_getitem_setitem.
    destruct (String.eqb_spec (login member) k); [congruence | reflexivity].
Qed.

Lemma dict_keys_add_member org d member :
  dict_keys (add_member org d member) =
    if dict_contains d (login member) then dict_keys d else dict_keys d ++ [login member].
Proof.
  unfold add_member. rewrite dict_keys_append.
  destruct (dict_contains d (login member)) eqn:Hc; cbn [negb]; [reflexivity |].
  now apply dict_keys_setitem_new.
Qed.

Lemma NoDup_snoc {A} (l : list A) (x : A) : NoDup l -> ~ In x l -> NoDup (l ++ [x]).
Proof.
  intros Hl Hx. apply NoDup_app; [exact Hl | repeat constructor; simpl; tauto |].
  intros y Hy [<- | []]. exact (Hx Hy).
Qed.

Lemma NoDup_keys_add_member org d member :
  NoDup (dict_keys d) -> NoDup (dict_keys (add_member org d member)).
Proof.
  intros Hd. rewrite dict_keys_add_member.
  destruct (dict_contains d (login member)) eqn:Hc; [exact Hd |].
  apply NoDup_snoc; [exact Hd |].
  rewrite <- dict_contains_keys. congruence.
Qed.

(** All the members of one organization: each occurrence of a login adds the
    organization once more. *)
Lemma dict_getitem_add_members org members : forall d k,
  dict_getitem (fold_left (add_member org) members d) k =
    match filter (is_login k) members with
    | [] => dict_getitem d k
    | occurrences => Some (orgs_so_far d k ++ map (fun _ => org) occurrences)
    end.
Proof.
  induction members as [| m members IH]; intros d k; simpl; [reflexivity |].
  rewrite IH. unfold orgs_so_far at 1. rewrite !dict_getitem_add_member.
  destruct (is_login k m); cbn [map].
  - destruct (filter (is_login k) members); cbn [map]; rewrite <- ?app_assoc; reflexivity.
  - reflexivity.
Qed.

Lemma NoDup_keys_add_members org members : forall d,
  NoDup (dict_keys d) -> NoDup (dict_keys (fold_left (add_member org) members d)).
Proof.
  induction members as [| m members IH]; intros d Hd; simpl; [exact Hd |].
  apply IH, NoDup_keys_add_member, Hd.
Qed.

Lemma build_all_members_getitem fuel session configured : forall d t d' k,
  build_all_members fuel session configured d = (t, Ret d') ->
  dict_getitem d' k =
    match listings fuel session k configured with
    | [] => dict_getitem d k
    | l => Some (orgs_so_far d k ++ l)
    end.
Proof.
  induction configured as [| org rest IH]; intros d t d' k Hrun.
  - inversion Hrun; subst. reflexivity.
  - cbn [build_all_members] in Hrun. apply bind_Ret_inv in Hrun.
    destruct Hrun as (t1 & members & t2 & Hmembers & Hrest & _).
    rewrite (IH _ _ _ k Hrest). unfold listings. cbn [flat_map].
    fold (listings fuel session k rest).
    unfold enumerated at 1. rewrite Hmembers. cbn [snd].
    unfold orgs_so_far at 1. rewrite !dict_getitem_add_members.
    destruct (filter (is_login k) members) as [| m ms]; [reflexivity |].
    cbn [map app].
    destruct (listings fuel session k rest); [now rewrite app_nil_r |].
    now rewrite <- app_assoc.
Qed.

Lemma build_all_members_NoDup fuel session configured : forall d t d',
  build_all_members fuel session configured d = (t, Ret d') ->
  NoDup (dict_keys d) -> NoDup (dict_keys d').
Proof.
  induction configured as [| org rest IH]; intros d t d' Hrun Hd.
  - inversion Hrun; subst. exact Hd.
  - cbn [build_all_members] in Hrun. apply bind_Ret_inv in Hrun.
    destruct Hrun as (t1 & members & t2 & _ & Hrest & _).
    eapply IH; [exact Hrest |]. now apply NoDup_keys_add_members.
Qed.

Lemma existsb_is_login username members :
  existsb (is_login username) members = true <-> In username (map login members).
Proof.
  rewrite existsb_exists, in_map_iff. unfold is_login.
  split; intros (m & H1 & H2).
  - exists m. apply String.eqb_eq in H2. auto.
  - exists m. subst. rewrite String.eqb_refl. auto.
Qed.

Lemma In_listings fuel session username configured org :
  In org (listings fuel session username configured)
  <-> In org configured /\ In username (map login (enumerated fuel session org)).
Proof.
  unfold listings. rewrite in_flat_map, <- existsb_is_login, existsb_exists.
  split.
  - intros (o & Ho & Hin). apply in_map_iff in Hin. destruct Hin as (m & <- & Hm).
    apply filter_In in Hm. split; [exact Ho | now exists m].
  - intros (Ho & m & Hm & Hlogin). exists org. split; [exact Ho |].
    apply in_map_iff. exists m. split; [reflexivity | now apply filter_In].
Qed.

(** The keys of the mapping are the logins that some organization's
    enumeration returned. *)
Lemma build_all_members_keys fuel session configured t d username :
  build_all_members fuel session configured [] = (t, Ret d) ->
  In username (dict_keys d)
  <-> exists org, In org configured /\ In username (map login (enumerated fuel session org)).
Proof.
  intros Hrun. rewrite <- dict_contains_keys, dict_contains_getitem.
  rewrite (build_all_members_getitem _ _ _ _ _ _ username Hrun). cbn [dict_getitem].
  destruct (listings fuel session username configured) as [| o l] eqn:Hl.
  - split; [discriminate |]. intros (org & Horg). apply In_listings in Horg.
    rewrite Hl in Horg. destruct Horg.
  - split; [| reflexivity]. intros _. exists o. apply In_listings. rewrite Hl. now left.
Qed.

(** ** The activity requests *)

Lemma get_user_activity_run env session username :
  get_user_activity env session username =
    ([Get (UserEvents username)], last_activity env session username).
Proof.
  unfold last_activity, get_user_activity, get_events. rewrite bind_event.
  destruct (status (user_events session username) =? 200)%Z; [| reflexivity].
  destruct (json (user_events session username)) as [| e rest]; [reflexivity |].
  destruct (fromisoformat env _); reflexivity.
Qed.

Lemma gather_tasks_requests env session usernames :
  fst (gather (map snd (tasks_for env session usernames))) = event_requests usernames.
Proof.
  induction usernames as [| u us IH]; [reflexivity |].
  cbn [tasks_for map gather snd]. fold (tasks_for env session us).
  rewrite get_user_activity_run.
  destruct (gather (map snd (tasks_for env session us))) as [t' rs].
  cbn [fst] in *. now rewrite IH.
Qed.

Lemma gather_tasks_Ret env session usernames : forall t results,
  gather (map snd (tasks_for env session usernames)) = (t, Ret results) ->
  Forall2 (fun u r => last_activity env session u = Ret r) usernames results.
Proof.
  induction usernames as [| u us IH]; intros t results Hrun.
  - inversion Hrun; subst. constructor.
  - cbn [tasks_for map gather snd] in Hrun. fold (tasks_for env session us) in Hrun.
    rewrite get_user_activity_run in Hrun.
    destruct (gather (map snd (tasks_for env session us))) as [t' [rs | e | ]];
      destruct (last_activity env session u) as [r | e' | ] eqn:Hu;
      inversion Hrun; subst.
    constructor; [exact Hu | eapply IH; reflexivity].
Qed.

Lemma last_activity_cases env session username :
  (exists r, last_activity env session username = Ret r)
  \/ last_activity env session username = Raise ValueError.
Proof.
  unfold last_activity, get_user_activity, get_events. rewrite bind_event. cbn [snd].
  destruct (status (user_events session username) =? 200)%Z; [| left; now eexists].
  destruct (json (user_events session username)); [left; now eexists |].
  destruct (fromisoformat env _); [left; now eexists | now right].
Qed.

Lemma gather_tasks_raises env session usernames username :
  In username usernames ->
  last_activity env session username = Raise ValueError ->
  gather (map snd (tasks_for env session usernames))
  = (event_requests usernames, Raise ValueError).
Proof.
  intros Hin Hraise.
  rewrite <- (gather_tasks_requests env session usernames).
  induction usernames as [| u us IH]; [destruct Hin |].
  cbn [tasks_for map gather snd]. fold (tasks_for env session us).
  rewrite get_user_activity_run.
  destruct (last_activity_cases env session u) as [[r Hr] | Hr]; rewrite Hr.
  - destruct Hin as [-> | Hin]; [congruence |].
    rewrite (IH Hin). reflexivity.
  - now destruct (gather (map snd (tasks_for env session us))).
Qed.

Lemma user_activities_loop_Ret env session d usernames : forall results acc t ua,
  Forall2 (fun u r => last_activity env session u = Ret r) usernames results ->
  user_activities_loop d (combine (tasks_for env session usernames) results) acc
    = (t, Ret ua) ->
  t = [] /\ exists rows,
    ua = acc ++ rows
    /\ map username_of rows = filter (has_activity env session) usernames
    /\ Forall (row_recorded env session d) rows.
Proof.
  induction usernames as [| u us IH]; intros results acc t ua Hres Hrun.
  - inversion Hres; subst. inversion Hrun; subst.
    split; [reflexivity |]. exists []. rewrite app_nil_r. repeat split; constructor.
  - inversion Hres as [| u' r us' rs Hu Hrest]; subst.
    cbn [tasks_for map combine user_activities_loop] in Hrun.
    fold (tasks_for env session us) in Hrun.
    cbn [filter]. unfold has_activity at 1. rewrite Hu.
    destruct r as [la |].
    + destruct (dict_getitem d u) as [user_orgs |] eqn:Hget; [| discriminate].
      destruct (IH _ _ _ _ Hrest Hrun) as (-> & rows & -> & Hnames & Hrows).
      split; [reflexivity |]. exists ((u, la, user_orgs) :: rows).
      rewrite <- app_assoc. repeat split.
      * cbn [map]. now rewrite Hnames.
      * constructor; [split; assumption | exact Hrows].
    + destruct (IH _ _ _ _ Hrest Hrun) as (-> & rows & -> & Hnames & Hrows).
      split; [reflexivity |]. exists rows. auto.
Qed.

(** The run up to the sort: the enumeration, then one request for every key
    of the mapping, and a row for every key with an activity. *)
Lemma gather_user_activities_Ret fuel env session t ua :
  gather_user_activities fuel env session = (t, Ret ua) ->
  exists te d,
    build_all_members fuel session orgs [] = (te, Ret d)
    /\ t = te ++ event_requests (dict_keys d)
    /\ map username_of ua = filter (has_activity env session) (dict_keys d)
    /\ Forall (row_recorded env session d) ua.
Proof.
  unfold gather_user_activities. intros Hrun.
  apply bind_Ret_inv in Hrun. destruct Hrun as (te & d & t2 & Hbuild & Hrun & ->).
  apply bind_Ret_inv in Hrun. destruct Hrun as (tg & results & tl & Hgather & Hloop & ->).
  unfold make_tasks in Hgather, Hloop. fold (tasks_for env session (dict_keys d)) in *.
  pose proof (gather_tasks_requests env session (dict_keys d)) as Hreq.
  rewrite Hgather in Hreq. cbn [fst] in Hreq. subst tg.
  apply gather_tasks_Ret in Hgather.
  destruct (user_activities_loop_Ret _ _ _ _ _ _ _ _ Hgather Hloop)
    as (-> & rows & -> & Hnames & Hrows).
  exists te, d. rewrite app_nil_r. auto.
Qed.

(** ** The sort and the printed lines *)

Lemma print_rows_run env rows :
  print_rows env rows = (map (fun row => Print (report_line env row)) rows, Ret tt).
Proof.
  induction rows as [| row rows IH]; [reflexivity |].
  cbn [print_rows map]. unfold print. rewrite bind_event, IH. reflexivity.
Qed.

Lemma insert_Some x l s : insert x l = Some s -> s = insert_by_instant x l.
Proof.
  revert s. induction l as [| y l IH]; intros s; cbn [insert insert_by_instant].
  - now intros [= <-].
  - unfold datetime_lt.
    destruct (Bool.eqb (aware (last_activity_of y)) (aware (last_activity_of x)));
      [| discriminate].
    destruct (instant (last_activity_of y) <? instant (last_activity_of x))%Z.
    + destruct (insert x l) as [s' |]; [| discriminate].
      intros [= <-]. now rewrite (IH s' eq_refl).
    + now intros [= <-].
Qed.

Lemma sort_Some l s : sort l = Some s -> s = sort_by_instant l.
Proof.
  revert s. induction l as [| x l IH]; intros s; cbn [sort].
  - now intros [= <-].
  - destruct (sort l) as [s' |]; [| discriminate].
    intros H. apply insert_Some in H. now rewrite (IH s' eq_refl) in H.
Qed.

(** Between aware datetimes every comparison answers, so the sort returns. *)
Lemma insert_aware x l :
  aware (last_activity_of x) = true ->
  Forall (fun y => aware (last_activity_of y) = true) l ->
  insert x l = Some (insert_by_instant x l).
Proof.
  intros Hx. induction 1 as [| y l Hy Hl IH]; [reflexivity |].
  cbn [insert insert_by_instant]. unfold datetime_lt. rewrite Hx, Hy. cbn [Bool.eqb].
  destruct (instant (last_activity_of y) <? instant (last_activity_of x))%Z;
    [now rewrite IH | reflexivity].
Qed.

Lemma sorted_reverse_Ret ua t rows :
  sorted_reverse ua = (t, Ret rows) -> t = [] /\ rows = rev (sort_by_instant (rev ua)).
Proof.
  unfold sorted_reverse. destruct (sort (rev ua)) as [s |] eqn:Hsort; [| discriminate].
  apply sort_Some in Hsort. intros H. inversion H. subst. auto.
Qed.

Lemma report_Ret env ua t :
  report env ua = (t, Ret tt) ->
  sorted_reverse ua = ret (rev (sort_by_instant (rev ua)))
  /\ t = map (fun row => Print (report_line env row)) (rev (sort_by_instant (rev ua))).
Proof.
  unfold report. intros Hrun. apply bind_Ret_inv in Hrun.
  destruct Hrun as (t1 & rows & t2 & Hsorted & Hprint & ->).
  destruct (sorted_reverse_Ret _ _ _ Hsorted) as [-> ->].
  rewrite print_rows_run in Hprint. inversion Hprint. auto.
Qed.

Lemma insert_Permutation x l : Permutation (x :: l) (insert_by_instant x l).
Proof.
  induction l as [| y l IH]; simpl; [reflexivity |].
  destruct (instant (last_activity_of y) <? instant (last_activity_of x))%Z;
    [| reflexivity].
  rewrite perm_swap. now apply perm_skip.
Qed.

Lemma sort_Permutation l : Permutation l (sort_by_instant l).
Proof.
  induction l as [| x l IH]; simpl; [reflexivity |].
  rewrite <- insert_Permutation. now apply perm_skip.
Qed.

Lemma sort_aware l :
  Forall (fun y => aware (last_activity_of y) = true) l ->
  sort l = Some (sort_by_instant l).
Proof.
  induction 1 as [| x l Hx Hl IH]; [reflexivity |].
  cbn [sort sort_by_instant fold_right]. fold (sort_by_instant l). rewrite IH.
  apply insert_aware; [exact Hx |].
  exact (Permutation_Forall (sort_Permutation l) Hl).
Qed.

(** With aware timestamps only, as the platform's are, the sort returns. *)
Lemma sorted_reverse_aware l :
  Forall (fun y => aware (last_activity_of y) = true) l ->
  sorted_reverse l = ret (rev (sort_by_instant (rev l))).
Proof.
  intros Hl. unfold sorted_reverse. rewrite sort_aware; [reflexivity |].
  exact (Permutation_Forall (Permutation_rev l) Hl).
Qed.

Lemma insert_ascending x l :
  StronglySorted ascending l -> StronglySorted ascending (insert_by_instant x l).
Proof.
  induction l as [| y l IH]; intros Hl; simpl.
  - repeat constructor.
  - inversion Hl as [| y' l' Hsorted Hall]; subst.
    destruct (Z.ltb_spec (instant (last_activity_of y)) (instant (last_activity_of x)))
      as [Hlt | Hge].
    + constructor; [now apply IH |].
      rewrite Forall_forall in *. intros z Hz.
      apply (Permutation_in _ (Permutation_sym (insert_Permutation x l))) in Hz.
      destruct Hz as [<- | Hz]; [unfold ascending; lia | now apply Hall].
    + constructor; [exact Hl |].
      constructor; [exact Hge |].
      rewrite Forall_forall in *. intros z Hz.
      specialize (Hall z Hz). unfold ascending in *. lia.
Qed.

Lemma sort_ascending l : StronglySorted ascending (sort_by_instant l).
Proof.
  induction l as [| x l IH]; simpl; [constructor | now apply insert_ascending].
Qed.

(** Inserting a row never moves it past a row with the same timestamp. *)
Lemma insert_at_instant k x l : at_instant k (insert_by_instant x l) = at_instant k (x :: l).
Proof.
  unfold at_instant. induction l as [| y l IH]; [reflexivity |].
  cbn [insert_by_instant].
  destruct (Z.ltb_spec (instant (last_activity_of y)) (instant (last_activity_of x)))
    as [Hlt | Hge]; [| reflexivity].
  cbn [filter] in *. rewrite IH.
  destruct (Z.eqb_spec (instant (last_activity_of y)) k) as [Hy | Hy];
    destruct (Z.eqb_spec (instant (last_activity_of x)) k) as [Hx | Hx];
    try reflexivity; lia.
Qed.

Lemma sort_at_instant k l : at_instant k (sort_by_instant l) = at_instant k l.
Proof.
  induction l as [| x l IH]; [reflexivity |].
  cbn [sort_by_instant fold_right]. fold (sort_by_instant l). rewrite insert_at_instant.
  unfold at_instant in *. cbn [filter]. now rewrite IH.
Qed.

Lemma StronglySorted_snoc {A} (R : A -> A -> Prop) l x :
  StronglySorted R l -> Forall (fun y => R y x) l -> StronglySorted R (l ++ [x]).
Proof.
  induction l as [| y l IH]; intros Hl Hx; simpl.
  - repeat constructor.
  - inversion Hl; subst. inversion Hx; subst.
    constructor; [now apply IH |].
    apply Forall_app. split; [assumption | now repeat constructor].
Qed.

Lemma rev_ascending l : StronglySorted ascending l -> StronglySorted descending (rev l).
Proof.
  induction 1 as [| x l Hl IH Hall]; simpl; [constructor |].
  apply StronglySorted_snoc; [exact IH |].
  rewrite Forall_forall in *. intros y Hy. apply in_rev in Hy. exact (Hall y Hy).
Qed.

(** [sorted(..., reverse=True)]: the same rows, most recent first, rows
    with one timestamp in the order they came in. *)
Lemma sorted_reverse_spec l :
  let rows := rev (sort_by_instant (rev l)) in
  Permutation l rows
  /\ StronglySorted descending rows
  /\ forall k, at_instant k rows = at_instant k l.
Proof.
  cbn zeta. repeat split.
  - rewrite <- Permutation_rev, <- sort_Permutation. apply Permutation_rev.
  - apply rev_ascending, sort_ascending.
  - intros k. unfold at_instant. rewrite filter_rev.
    fold (at_instant k (sort_by_instant (rev l))). rewrite sort_at_instant.
    unfold at_instant. rewrite filter_rev. apply rev_involutive.
Qed.

(** ** Two platforms that answer alike *)

Lemma agree_on_bind_l s1 s2 {A B} (m : M A) (k : A -> M B) :
  agree_on s1 s2 (bind m k) -> agree_on s1 s2 m.
Proof.
  intros H r Hr. apply H. destruct m as [t [a | e | ]]; simpl in *; try assumption.
  destruct (k a) as [t' o]. simpl. rewrite requests_app. apply in_or_app. now left.
Qed.

Lemma agree_on_bind_r s1 s2 {A B} (m : M A) (k : A -> M B) t a :
  m = (t, Ret a) -> agree_on s1 s2 (bind m k) -> agree_on s1 s2 (k a).
Proof.
  intros -> H r Hr. apply H. simpl. destruct (k a) as [t' o]. simpl in *.
  rewrite requests_app. apply in_or_app. now right.
Qed.

Lemma bind_congruence {A B} (m1 m2 : M A) (k1 k2 : A -> M B) :
  m1 = m2 -> (forall t a, m1 = (t, Ret a) -> k1 a = k2 a) -> bind m1 k1 = bind m2 k2.
Proof.
  intros <- Hk. destruct m1 as [t [a | e | ]]; simpl; try reflexivity.
  now rewrite (Hk t a eq_refl).
Qed.

Lemma agree_on_event s1 s2 {A} (e : Event) (m : M A) :
  agree_on s1 s2 (e :: fst m, snd m) -> agree_on s1 s2 m.
Proof.
  intros H r Hr. apply H. cbn [fst]. change (e :: fst m) with ([e] ++ fst m).
  rewrite requests_app. apply in_or_app. now right.
Qed.

Lemma get_org_members_from_agree s1 s2 org fuel : forall page members,
  agree_on s1 s2 (get_org_members_from fuel s1 org page members) ->
  get_org_members_from fuel s1 org page members
    = get_org_members_from fuel s2 org page members.
Proof.
  induction fuel as [| fuel IH]; intros page members Hagree; [reflexivity |].
  cbn [get_org_members_from] in *. unfold get_members in *.
  rewrite !bind_event in *.
  assert (Hpage : org_members s1 org page = org_members s2 org page).
  { apply (Hagree (OrgMembers org page)). simpl. now left. }
  apply agree_on_event in Hagree. rewrite <- Hpage.
  destruct (negb (status (org_members s1 org page) =? 200)%Z); [reflexivity |].
  destruct (json (org_members s1 org page)) as [| m ms]; [reflexivity |].
  now rewrite (IH _ _ Hagree).
Qed.

Lemma build_all_members_agree s1 s2 fuel configured : forall d,
  agree_on s1 s2 (build_all_members fuel s1 configured d) ->
  build_all_members fuel s1 configured d = build_all_members fuel s2 configured d.
Proof.
  induction configured as [| org rest IH]; intros d Hagree; [reflexivity |].
  cbn [build_all_members] in *. apply bind_congruence.
  - apply get_org_members_from_agree. exact (agree_on_bind_l _ _ _ _ Hagree).
  - intros t members Hmembers. apply IH.
    exact (agree_on_bind_r _ _ _ _ _ _ Hmembers Hagree).
Qed.

Lemma get_user_activity_agree s1 s2 env username :
  agree s1 s2 (UserEvents username) ->
  get_user_activity env s1 username = get_user_activity env s2 username.
Proof.
  unfold agree, get_user_activity, get_events. now intros ->.
Qed.

Lemma requests_event_requests usernames :
  requests (event_requests usernames) = map UserEvents usernames.
Proof.
  unfold event_requests. rewrite <- (requests_gets (map UserEvents usernames)).
  now rewrite map_map.
Qed.

Lemma tasks_for_agree s1 s2 env usernames :
  agree_on s1 s2 (gather (map snd (tasks_for env s1 usernames))) ->
  tasks_for env s1 usernames = tasks_for env s2 usernames.
Proof.
  intros Hagree. unfold tasks_for. apply map_ext_in. intros u Hu.
  f_equal. apply get_user_activity_agree. apply Hagree.
  rewrite gather_tasks_requests, requests_event_requests. now apply in_map.
Qed.

Lemma gather_user_activities_agree s1 s2 fuel env :
  agree_on s1 s2 (gather_user_activities fuel env s1) ->
  gather_user_activities fuel env s1 = gather_user_activities fuel env s2.
Proof.
  unfold gather_user_activities. intros Hagree. apply bind_congruence.
  - apply build_all_members_agree. exact (agree_on_bind_l _ _ _ _ Hagree).
  - intros t d Hd. apply (agree_on_bind_r _ _ _ _ _ _ Hd) in Hagree.
    unfold make_tasks in *. fold (tasks_for env s1 (dict_keys d)) in *.
    fold (tasks_for env s2 (dict_keys d)).
    rewrite <- (tasks_for_agree s1 s2 env (dict_keys d)); [reflexivity |].
    exact (agree_on_bind_l _ _ _ _ Hagree).
Qed.

Lemma main_after_check_agree s1 s2 fuel env :
  agree_on s1 s2 (main_after_check fuel env s1) ->
  main_after_check fuel env s1 = main_after_check fuel env s2.
Proof.
  unfold main_after_check. intros Hagree. apply bind_congruence; [| reflexivity].
  apply gather_user_activities_agree. exact (agree_on_bind_l _ _ _ _ Hagree).
Qed.

(** ** Timestamps *)

Lemma append_assoc (s1 s2 s3 : string) : (s1 ++ (s2 ++ s3) = (s1 ++ s2) ++ s3)%string.
Proof. induction s1 as [| c s1 IH]; simpl; [reflexivity | now rewrite IH]. Qed.

Lemma replace_app old new s1 s2 :
  replace old new (s1 ++ s2) = (replace old new s1 ++ replace old new s2)%string.
Proof.
  induction s1 as [| c s1 IH]; simpl; [reflexivity |].
  rewrite IH. destruct (Ascii.eqb c old); simpl; [apply append_assoc | reflexivity].
Qed.

Lemma replace_free_of old new s : free_of old s = true -> replace old new s = s.
Proof.
  induction s as [| c s IH]; simpl; [reflexivity |].
  destruct (Ascii.eqb c old); simpl; [discriminate |].
  intros H. now rewrite IH.
Qed.

Lemma digit_char_spec d :
  (0 <= d <= 9)%Z ->
  digit_value (digit_char d) = Some d /\ Ascii.eqb (digit_char d) "Z" = false.
Proof.
  intros Hd.
  assert (H : (d = 0 \/ d = 1 \/ d = 2 \/ d = 3 \/ d = 4 \/ d = 5 \/ d = 6 \/ d = 7
               \/ d = 8 \/ d = 9)%Z) by lia.
  repeat (destruct H as [-> | H]; [split; reflexivity |]). subst. split; reflexivity.
Qed.

Lemma valid_datetime_ranges dt :
  valid_datetime dt = true ->
  (1 <= year dt <= 9999 /\ 1 <= month dt <= 12 /\ 1 <= day dt <= 31
   /\ 0 <= hour dt <= 23 /\ 0 <= minute dt <= 59 /\ 0 <= second dt <= 59)%Z.
Proof.
  unfold valid_datetime. rewrite !andb_true_iff, !Z.leb_le.
  intros H. decompose [and] H. clear H.
  assert (days_in_month (year dt) (month dt) <= 31)%Z.
  { unfold days_in_month.
    destruct (month dt =? 2)%Z; [destruct (is_leap (year dt)); lia |].
    destruct ((month dt =? 4) || (month dt =? 6) || (month dt =? 9) || (month dt =? 11))%Z;
      lia. }
  lia.
Qed.

Lemma two_digits_spec n :
  (0 <= n <= 99)%Z ->
  exists c1 c2,
    two_digits n = String c1 (String c2 "")
    /\ number [c1; c2] = Some n
    /\ Ascii.eqb c1 "Z" = false /\ Ascii.eqb c2 "Z" = false.
Proof.
  intros Hn. exists (digit_char (n / 10)), (digit_char (n mod 10)).
  assert (H1 : (0 <= n / 10 <= 9)%Z) by (Z.to_euclidean_division_equations; lia).
  assert (H2 : (0 <= n mod 10 <= 9)%Z) by (Z.to_euclidean_division_equations; lia).
  destruct (digit_char_spec _ H1) as [Hv1 Hz1], (digit_char_spec _ H2) as [Hv2 Hz2].
  repeat split; try assumption.
  unfold number. cbn [number_from]. rewrite Hv1, Hv2. f_equal.
  Z.to_euclidean_division_equations; lia.
Qed.

Lemma four_digits_spec n :
  (0 <= n <= 9999)%Z ->
  exists c1 c2 c3 c4,
    four_digits n = String c1 (String c2 (String c3 (String c4 "")))
    /\ number [c1; c2; c3; c4] = Some n
    /\ Ascii.eqb c1 "Z" = false /\ Ascii.eqb c2 "Z" = false
    /\ Ascii.eqb c3 "Z" = false /\ Ascii.eqb c4 "Z" = false.
Proof.
  intros Hn.
  exists (digit_char (n / 1000)), (digit_char (n / 100 mod 10)),
    (digit_char (n / 10 mod 10)), (digit_char (n mod 10)).
  assert (H1 : (0 <= n / 1000 <= 9)%Z) by (Z.to_euclidean_division_equations; lia).
  assert (H2 : (0 <= n / 100 mod 10 <= 9)%Z) by (Z.to_euclidean_division_equations; lia).
  assert (H3 : (0 <= n / 10 mod 10 <= 9)%Z) by (Z.to_euclidean_division_equations; lia).
  assert (H4 : (0 <= n mod 10 <= 9)%Z) by (Z.to_euclidean_division_equations; lia).
  destruct (digit_char_spec _ H1) as [Hv1 Hz1], (digit_char_spec _ H2) as [Hv2 Hz2],
    (digit_char_spec _ H3) as [Hv3 Hz3], (digit_char_spec _ H4) as [Hv4 Hz4].
  repeat split; try assumption.
  unfold number. cbn [number_from]. rewrite Hv1, Hv2, Hv3, Hv4. f_equal.
  Z.to_euclidean_division_equations; lia.
Qed.

(** The nineteen characters of [YYYY-MM-DDTHH:MM:SS]. *)
Lemma isoformat_seconds_shape dt :
  valid_datetime dt = true ->
  exists y1 y2 y3 y4 mo1 mo2 d1 d2 h1 h2 mi1 mi2 s1 s2,
    isoformat_seconds dt =
      String y1 (String y2 (String y3 (String y4 (String "-" (String mo1 (String mo2
        (String "-" (String d1 (String d2 (String "T" (String h1 (String h2
          (String ":" (String mi1 (String mi2 (String ":" (String s1 (String s2
            ""))))))))))))))))))
    /\ number [y1; y2; y3; y4] = Some (year dt) /\ number [mo1; mo2] = Some (month dt)
    /\ number [d1; d2] = Some (day dt) /\ number [h1; h2] = Some (hour dt)
    /\ number [mi1; mi2] = Some (minute dt) /\ number [s1; s2] = Some (second dt)
    /\ free_of "Z" (isoformat_seconds dt) = true.
Proof.
  intros Hvalid. apply valid_datetime_ranges in Hvalid.
  destruct Hvalid as (Hy & Hmo & Hd & Hh & Hmi & Hs).
  destruct (four_digits_spec (year dt) ltac:(lia))
    as (y1 & y2 & y3 & y4 & Ey & Ny & Zy1 & Zy2 & Zy3 & Zy4).
  destruct (two_digits_spec (month dt) ltac:(lia)) as (mo1 & mo2 & Emo & Nmo & Zmo1 & Zmo2).
  destruct (two_digits_spec (day dt) ltac:(lia)) as (d1 & d2 & Ed & Nd & Zd1 & Zd2).
  destruct (two_digits_spec (hour dt) ltac:(lia)) as (h1 & h2 & Eh & Nh & Zh1 & Zh2).
  destruct (two_digits_spec (minute dt) ltac:(lia)) as (mi1 & mi2 & Emi & Nmi & Zmi1 & Zmi2).
  destruct (two_digits_spec (second dt) ltac:(lia)) as (s1 & s2 & Es & Ns & Zs1 & Zs2).
  exists y1, y2, y3, y4, mo1, mo2, d1, d2, h1, h2, mi1, mi2, s1, s2.
  unfold isoformat_seconds. rewrite Ey, Emo, Ed, Eh, Emi, Es.
  cbn [String.append free_of].
  rewrite Zy1, Zy2, Zy3, Zy4, Zmo1, Zmo2, Zd1, Zd2, Zh1, Zh2, Zmi1, Zmi2, Zs1, Zs2.
  repeat split; assumption || reflexivity.
Qed.

(** The script's [replace] turns the platform's text into [isoformat]'s. *)
Lemma replace_github_timestamp dt :
  valid_datetime dt = true ->
  replace "Z" "+00:00" (github_timestamp dt) = utc_isoformat dt.
Proof.
  intros Hvalid. unfold github_timestamp, utc_isoformat.
  destruct (isoformat_seconds_shape dt Hvalid)
    as (? & ? & ? & ? & ? & ? & ? & ? & ? & ? & ? & ? & ? & ? & _ & _ & _ & _ & _ & _ & _ & Hfree).
  rewrite replace_app, (replace_free_of _ _ _ Hfree). reflexivity.
Qed.

(** The sample parser undoes [isoformat]. *)
Lemma parse_isoformat_utc_isoformat : inverts_isoformat sample_env.
Proof.
  intros dt Hutc. cbn [fromisoformat sample_env].
  unfold utc_seconds in Hutc. rewrite !andb_true_iff in Hutc.
  destruct Hutc as [[Hvalid Hmicro] Hzone].
  destruct (isoformat_seconds_shape dt Hvalid)
    as (y1 & y2 & y3 & y4 & mo1 & mo2 & d1 & d2 & h1 & h2 & mi1 & mi2 & s1 & s2
        & Hshape & Ny & Nmo & Nd & Nh & Nmi & Ns & _).
  unfold parse_isoformat, utc_isoformat. rewrite Hshape.
  cbn [String.append list_ascii_of_string].
  rewrite Ny, Nmo, Nd, Nh, Nmi, Ns.
  change (parse_offset ["+"; "0"; "0"; ":"; "0"; "0"]%char) with (Some (Some 0%Z)).
  cbn [Ascii.eqb Bool.eqb andb].
  apply Z.eqb_eq in Hmicro.
  destruct dt as [y mo d h mi s us tz]. cbn [year month day hour minute second
    microsecond tzinfo] in *.
  destruct tz as [[| |] |]; try discriminate. subst us.
  unfold valid_datetime in *. cbn [year month day hour minute second microsecond] in *.
  rewrite Hvalid. reflexivity.
Qed.

(** ** What a whole run prints *)

Lemma bind_prefix {A B} (m : M A) (k : A -> M B) :
  exists t, fst (bind m k) = fst m ++ t.
Proof.
  destruct m as [t1 [a | e | ]]; simpl.
  - destruct (k a) as [t2 o]. now exists t2.
  - exists []. now rewrite app_nil_r.
  - exists []. now rewrite app_nil_r.
Qed.

(** A run that ends normally has a report. *)
Lemma main_after_check_Ret fuel env session t :
  main_after_check fuel env session = (t, Ret tt) ->
  exists user_activities rows, report_of fuel env session user_activities rows.
Proof.
  intros Hrun. pose proof Hrun as Hrun'. unfold main_after_check in Hrun'.
  apply bind_Ret_inv in Hrun'. destruct Hrun' as (t0 & ua & t1 & Hgather & Hreport & ->).
  apply report_Ret in Hreport. destruct Hreport as [Hsorted ->].
  exists ua, (rev (sort_by_instant (rev ua))), t0. auto.
Qed.

Lemma report_of_sorted fuel env session ua rows :
  report_of fuel env session ua rows -> rows = rev (sort_by_instant (rev ua)).
Proof.
  intros (t0 & _ & Hsorted & _). now apply sorted_reverse_Ret in Hsorted.
Qed.

Lemma get_org_members_from_requests session org fuel : forall page members,
  Forall org_request (requests (fst (get_org_members_from fuel session org page members))).
Proof.
  induction fuel as [| fuel IH]; intros page members; [constructor |].
  cbn [get_org_members_from]. unfold get_members. rewrite bind_event. cbn [fst].
  change (requests (?e :: ?t)) with (requests [e] ++ requests t).
  apply Forall_app. split; [repeat constructor |].
  destruct (negb (status (org_members session org page) =? 200)%Z); [constructor |].
  destruct (json (org_members session org page)); [constructor | apply IH].
Qed.

Lemma build_all_members_requests session fuel configured : forall d,
  Forall org_request (requests (fst (build_all_members fuel session configured d))).
Proof.
  induction configured as [| org rest IH]; intros d; [constructor |].
  cbn [build_all_members].
  pose proof (get_org_members_from_requests session org fuel 1 []) as Hfirst.
  fold (get_org_members fuel session org) in Hfirst.
  destruct (get_org_members fuel session org) as [t1 [members | e | ]]; simpl in *;
    try assumption.
  specialize (IH (fold_left (add_member org) members d)).
  destruct (build_all_members fuel session rest _) as [t2 o]. simpl in *.
  rewrite requests_app. apply Forall_app. now split.
Qed.

Lemma orgs_NoDup : NoDup orgs.
Proof.
  unfold orgs.
  repeat (constructor; [simpl; intros H; repeat (destruct H as [H | H]; [discriminate |]);
                        exact H |]).
  constructor.
Qed.

Ltac bind_prefix_step :=
  match goal with
  | |- context [fst (bind ?m ?k)] =>
      let t := fresh "t" in let H := fresh "H" in
      destruct (bind_prefix m k) as [t H]; rewrite H; clear H
  end.

(** Below the check, the first thing a run does is ask for the first page of
    the first organization. *)
Lemma main_after_check_first_request fuel env session :
  exists t, fst (main_after_check (S fuel) env session)
            = Get (OrgMembers "binder-examples" 1) :: t.
Proof.
  unfold main_after_check. bind_prefix_step.
  unfold gather_user_activities. bind_prefix_step.
  unfold orgs. cbn [build_all_members]. bind_prefix_step.
  unfold get_org_members. cbn [get_org_members_from]. unfold get_members.
  rewrite bind_event. cbn [fst app]. eexists. reflexivity.
Qed.

Example sample_run_report :
  printed (fst (main 3 sample_env sample_session)) =
    [ "Rate limit remaining: 5000";
      "Rate limit resets at 2024-06-01T00:00:00";
      "[red]Error fetching members for jupyter: 502[/red]";
      "carol               : Last activity 1000800 seconds ago in orgs: ipython";
      "bob                 : Last activity 2580955 seconds ago in orgs: ipython, jupyter" ].
Proof. vm_compute. reflexivity. Qed.

Example members_url_example :
  url (OrgMembers "ipython" 12)
  = "https://api.github.com/orgs/ipython/members?page=12&per_page=100".
Proof. reflexivity. Qed.

(** The runs of [main], by the response to the rate-limit request. *)
Lemma main_run fuel env session :
  main fuel env session
  = if (status (rate_limit session) =? 200)%Z then
      match fromtimestamp env (reset (json (rate_limit session))) with
      | inl e => ([Get RateLimit], Raise e)
      | inr reset_time =>
          if (remaining (json (rate_limit session)) <? 10)%Z then
            ([ Get RateLimit;
               Print ("Rate limit remaining: "
                        ++ str_Z (remaining (json (rate_limit session))));
               Print ("Rate limit resets " ++ naturaltime_of_datetime env reset_time);
               Print ("[yellow]Warning: Low rate limit ("
                        ++ str_Z (remaining (json (rate_limit session)))
                        ++ " remaining)[/yellow]");
               Print "[red]Aborting due to very low rate limit[/red]" ],
             Ret tt)
          else
            (Get RateLimit
               :: Print ("Rate limit remaining: "
                           ++ str_Z (remaining (json (rate_limit session))))
               :: Print ("Rate limit resets " ++ naturaltime_of_datetime env reset_time)
               :: (if (remaining (json (rate_limit session)) <? 100)%Z
                   then [Print ("[yellow]Warning: Low rate limit ("
                                  ++ str_Z (remaining (json (rate_limit session)))
                                  ++ " remaining)[/yellow]")]
                   else [])
               ++ fst (main_after_check fuel env session),
             snd (main_after_check fuel env session))
      end
    else (Get RateLimit :: fst (main_after_check fuel env session),
          snd (main_after_check fuel env session)).
Proof.
  unfold main, get_rate_limit. rewrite bind_event. cbv zeta.
  destruct (status (rate_limit session) =? 200)%Z; [| reflexivity].
  destruct (fromtimestamp env (reset (json (rate_limit session)))) as [e | reset_time];
    cbn [call]; [reflexivity |].
  rewrite bind_ret_l. unfold print.
  destruct (Z.ltb_spec (remaining (json (rate_limit session))) 10) as [Hlow | Hhigh].
  - replace (remaining (json (rate_limit session)) <? 100)%Z with true
      by (symmetry; apply Z.ltb_lt; lia).
    rewrite !bind_event. reflexivity.
  - destruct (remaining (json (rate_limit session)) <? 100)%Z;
      rewrite !bind_event; reflexivity.
Qed.

Lemma main_first_request fuel env session :
  exists t, fst (main fuel env session) = Get RateLimit :: t.
Proof.
  unfold main, get_rate_limit. rewrite bind_event. cbn [fst]. eexists. reflexivity.
Qed.

(** A run is decided by the responses to the requests it sends. *)
Lemma main_agree fuel env s1 s2 :
  (forall r, In r (requests (fst (main fuel env s1))) -> agree s1 s2 r) ->
  main fuel env s1 = main fuel env s2.
Proof.
  intros Hagree.
  assert (Hrate : rate_limit s1 = rate_limit s2).
  { apply (Hagree RateLimit).
    destruct (main_first_request fuel env s1) as [t ->]. simpl. now left. }
  assert (Hafter : (forall r, In r (requests (fst (main_after_check fuel env s1)))
                              -> In r (requests (fst (main fuel env s1)))) ->
                   main_after_check fuel env s1 = main_after_check fuel env s2).
  { intros Hincl. apply main_after_check_agree. intros r Hr. apply Hagree, Hincl, Hr. }
  clear Hagree. revert Hafter. rewrite !main_run, <- Hrate.
  assert (Hin : forall lines r,
    In r (requests (fst (main_after_check fuel env s1))) ->
    In r (requests (Get RateLimit
                      :: map Print lines ++ fst (main_after_check fuel env s1)))).
  { intros lines r Hr. change (Get RateLimit :: ?t) with ([Get RateLimit] ++ t).
    rewrite !requests_app, requests_prints. now right. }
  destruct (status (rate_limit s1) =? 200)%Z.
  - destruct (fromtimestamp env (reset (json (rate_limit s1)))) as [e | reset_time];
      [reflexivity |].
    destruct (remaining (json (rate_limit s1)) <? 10)%Z; [reflexivity |].
    intros Hafter. rewrite Hafter; [reflexivity |].
    cbn [fst]. destruct (remaining (json (rate_limit s1)) <? 100)%Z.
    + exact (Hin [_; _; _]).
    + exact (Hin [_; _]).
  - intros Hafter. rewrite Hafter; [reflexivity |]. exact (Hin []).
Qed.

(** A run of [main] that ends normally either stopped at the rate-limit
    check or went on to a report. *)
Lemma main_Ret fuel env session t :
  main fuel env session = (t, Ret tt) ->
  requests t = [RateLimit]
  \/ exists before user_activities rows,
       report_of fuel env session user_activities rows
       /\ requests before = []
       /\ t = Get RateLimit :: before ++ fst (main_after_check fuel env session).
Proof.
  assert (Hreport : forall lines,
    (Get RateLimit :: map Print lines ++ fst (main_after_check fuel env session),
     snd (main_after_check fuel env session)) = (t, Ret tt) ->
    exists before user_activities rows,
      report_of fuel env session user_activities rows
      /\ requests before = []
      /\ t = Get RateLimit :: before ++ fst (main_after_check fuel env session)).
  { intros lines Hrun. inversion Hrun as [[Ht Hend]].
    destruct (main_after_check_Ret fuel env session (fst (main_after_check fuel env session)))
      as (ua & rows & Hrows).
    { rewrite <- Hend. now destruct (main_after_check fuel env session). }
    exists (map Print lines), ua, rows. split; [exact Hrows |].
    split; [apply requests_prints | reflexivity]. }
  rewrite main_run.
  destruct (status (rate_limit session) =? 200)%Z;
    [| intros Hrun; right; exact (Hreport [] Hrun)].
  destruct (fromtimestamp env (reset (json (rate_limit session)))) as [e | reset_time];
    [discriminate |].
  destruct (remaining (json (rate_limit session)) <? 10)%Z.
  - intros Hrun. left. inversion Hrun. reflexivity.
  - intros Hrun. right.
    destruct (remaining (json (rate_limit session)) <? 100)%Z.
    + exact (Hreport [_; _; _] Hrun).
    + exact (Hreport [_; _] Hrun).
Qed.

(** ** Consequences for the mapping and the report *)

Lemma listings_once fuel session username configured :
  (forall org, In org configured ->
     length (filter (is_login username) (enumerated fuel session org)) <= 1) ->
  listings fuel session username configured
  = filter (fun org => existsb (is_login username) (enumerated fuel session org)) configured.
Proof.
  unfold listings. induction configured as [| org rest IH]; intros Honce; [reflexivity |].
  cbn [flat_map filter]. rewrite IH by (intros o Ho; apply Honce; now right).
  specialize (Honce org (or_introl eq_refl)).
  induction (enumerated fuel session org) as [| m ms IHm]; [reflexivity |].
  cbn [filter existsb] in *. destruct (is_login username m); cbn [orb length map] in *.
  - destruct (filter (is_login username) ms); [reflexivity | simpl in Honce; lia].
  - apply IHm, Honce.
Qed.

Lemma report_of_rows fuel env session ua rows :
  report_of fuel env session ua rows ->
  Permutation ua rows
  /\ StronglySorted descending rows
  /\ forall k, at_instant k rows = at_instant k ua.
Proof.
  intros Hreport. rewrite (report_of_sorted _ _ _ _ _ Hreport).
  apply sorted_reverse_spec.
Qed.

Lemma report_of_gathered fuel env session ua rows :
  report_of fuel env session ua rows ->
  exists te d,
    build_all_members fuel session orgs [] = (te, Ret d)
    /\ fst (main_after_check fuel env session)
       = te ++ event_requests (dict_keys d)
            ++ map (fun row => Print (report_line env row)) rows
    /\ map username_of ua = filter (has_activity env session) (dict_keys d)
    /\ Forall (row_recorded env session d) ua.
Proof.
  intros (t0 & Hgather & _ & Hmain).
  destruct (gather_user_activities_Ret _ _ _ _ _ Hgather) as (te & d & Hd & -> & Hnames & Hrows).
  exists te, d. rewrite Hmain. cbn [fst]. rewrite <- app_assoc. auto.
Qed.

Lemma tied_report : report_of 3 sample_env tied_session tied_user_activities tied_rows.
Proof.
  unfold report_of. eexists. split; [| split].
  - vm_compute. reflexivity.
  - reflexivity.
  - vm_compute. reflexivity.
Qed.

Lemma sample_report :
  report_of 3 sample_env sample_session sample_user_activities sample_rows.
Proof.
  unfold report_of. eexists. split; [| split].
  - vm_compute. reflexivity.
  - reflexivity.
  - vm_compute. reflexivity.
Qed.

(** ** The keys of the mapping *)

Lemma map_const_repeat {A B} (x : B) (l : list A) : map (fun _ => x) l = repeat x (length l).
Proof. induction l as [| a l IH]; simpl; [reflexivity | now rewrite IH]. Qed.

Lemma dict_keys_add_members org members : forall d,
  dict_keys (fold_left (add_member org) members d)
  = fold_left add_key (map login members) (dict_keys d).
Proof.
  induction members as [| m members IH]; intros d; [reflexivity |].
  cbn [fold_left map]. rewrite IH, dict_keys_add_member. f_equal. unfold add_key.
  destruct (in_dec string_dec (login m) (dict_keys d)) as [Hin | Hout].
  - apply dict_contains_keys in Hin. now rewrite Hin.
  - destruct (dict_contains d (login m)) eqn:Hc; [| reflexivity].
    apply dict_contains_keys in Hc. contradiction.
Qed.

Lemma build_all_members_dict_keys fuel session configured : forall d t d',
  build_all_members fuel session configured d = (t, Ret d') ->
  dict_keys d'
  = fold_left add_key (map login (flat_map (enumerated fuel session) configured))
      (dict_keys d).
Proof.
  induction configured as [| org rest IH]; intros d t d' Hrun.
  - inversion Hrun; subst. reflexivity.
  - cbn [build_all_members] in Hrun. apply bind_Ret_inv in Hrun.
    destruct Hrun as (t1 & members & t2 & Hmembers & Hrest & _).
    rewrite (IH _ _ _ Hrest), dict_keys_add_members.
    cbn [flat_map]. rewrite map_app, fold_left_app.
    unfold enumerated at 3. now rewrite Hmembers.
Qed.

Lemma add_keys_prefix logins : forall keys,
  exists new_keys, fold_left add_key logins keys = keys ++ new_keys.
Proof.
  induction logins as [| u logins IH]; intros keys.
  - exists []. now rewrite app_nil_r.
  - cbn [fold_left]. destruct (IH (add_key keys u)) as [ks ->]. unfold add_key.
    destruct (in_dec string_dec u keys); [now exists ks |].
    exists (u :: ks). now rewrite <- app_assoc.
Qed.

Lemma nodup_drops_a_repeated_element (x : string) (before later : list string) :
  In x later ->
  nodup string_dec (before ++ x :: later) = nodup string_dec (before ++ later).
Proof.
  intros Hx. induction before as [| a before IH]; cbn [app nodup].
  - destruct (in_dec string_dec x later); [reflexivity | contradiction].
  - rewrite IH.
    destruct (in_dec string_dec a (before ++ x :: later)) as [H1 | H1];
      destruct (in_dec string_dec a (before ++ later)) as [H2 | H2];
      try reflexivity; exfalso.
    + apply H2. apply in_app_or in H1. apply in_or_app.
      destruct H1 as [H1 | [<- | H1]]; auto.
    + apply H1. apply in_app_or in H2. apply in_or_app.
      destruct H2 as [H2 | H2]; [auto | right; now right].
Qed.

(** Adding keys one by one keeps the first occurrence of each. *)
Lemma add_keys_first_occurrences logins : forall keys,
  NoDup keys ->
  fold_left add_key logins keys = rev (nodup string_dec (rev (keys ++ logins))).
Proof.
  induction logins as [| u logins IH]; intros keys Hkeys.
  - rewrite app_nil_r. cbn [fold_left].
    rewrite nodup_fixed_point by now apply NoDup_rev. now rewrite rev_involutive.
  - cbn [fold_left]. unfold add_key at 2.
    destruct (in_dec string_dec u keys) as [Hin | Hout].
    + rewrite (IH keys Hkeys). f_equal.
      rewrite !rev_app_distr. cbn [rev]. rewrite <- app_assoc. cbn [app].
      symmetry. apply nodup_drops_a_repeated_element. now apply in_rev in Hin.
    + rewrite (IH (keys ++ [u])) by now apply NoDup_snoc.
      now rewrite <- app_assoc.
Qed.

(** ** Completion order and the sort's contract *)

Lemma first_failure_none {A B} (schedule : list nat) (values : list A) :
  first_failure (B := B) (completions schedule (map Ret values)) = None.
Proof.
  unfold completions. induction schedule as [| i schedule IH]; [reflexivity |].
  cbn [flat_map]. rewrite nth_error_map.
  destruct (nth_error values i); cbn [option_map app first_failure]; exact IH.
Qed.

Lemma result_at_completions {A} (schedule : list nat) (outcomes : list (Outcome A)) i a :
  In i schedule ->
  nth_error outcomes i = Some (Ret a) ->
  result_at (completions schedule outcomes) i = Some a.
Proof.
  intros Hin Hnth. unfold completions.
  induction schedule as [| j schedule IH]; [destruct Hin |].
  cbn [flat_map]. destruct (Nat.eqb_spec j i) as [-> | Hne].
  - rewrite Hnth. cbn [app result_at]. now rewrite Nat.eqb_refl.
  - destruct Hin as [Hji | Hin]; [contradiction |].
    destruct (nth_error outcomes j); cbn [app result_at].
    + destruct (Nat.eqb_spec j i); [contradiction | now apply IH].
    + now apply IH.
Qed.

Lemma results_in_position {A} (values : list A) : forall before,
  flat_map (fun i => match nth_error (before ++ values) i with
                     | Some a => [a]
                     | None => []
                     end) (seq (length before) (length values))
  = values.
Proof.
  induction values as [| a values IH]; intros before; [reflexivity |].
  cbn [length seq flat_map].
  rewrite nth_error_app2, Nat.sub_diag by lia. cbn [nth_error app]. f_equal.
  specialize (IH (before ++ [a])).
  rewrite <- app_assoc, length_app, Nat.add_1_r in IH. exact IH.
Qed.

Lemma flat_map_agree {A B} (f g : A -> list B) (l : list A) :
  (forall a, In a l -> f a = g a) -> flat_map f l = flat_map g l.
Proof.
  induction l as [| a l IH]; intros H; [reflexivity |].
  cbn [flat_map]. rewrite (H a (or_introl eq_refl)), IH; [reflexivity |].
  intros b Hb. apply H. now right.
Qed.

(** When every task returns, the results are in the order of the tasks,
    whatever the order of completion. *)
Lemma gather_completing_returns {A} (schedule : list nat) (tasks : list (M A)) values :
  Permutation schedule (seq 0 (length tasks)) ->
  map snd tasks = map Ret values ->
  snd (gather_completing schedule tasks) = Ret values.
Proof.
  intros Hperm Hvalues. unfold gather_completing. cbn [snd]. rewrite Hvalues.
  rewrite first_failure_none. f_equal.
  assert (Hlen : length tasks = length values).
  { pose proof (f_equal (@length _) Hvalues) as H. now rewrite !length_map in H. }
  rewrite Hlen in *.
  rewrite <- (results_in_position values []) at 2. cbn [length app].
  apply flat_map_agree. intros i Hi.
  apply in_seq in Hi.
  destruct (nth_error values i) as [a |] eqn:Hnth.
  - rewrite (result_at_completions schedule (map Ret values) i a); [reflexivity | |].
    + apply (Permutation_in _ (Permutation_sym Hperm)). apply in_seq. lia.
    + now rewrite nth_error_map, Hnth.
  - apply nth_error_None in Hnth. lia.
Qed.

Lemma first_failure_raises {A B} (done : list (nat * Outcome A)) e :
  Forall (fun c => (exists a, snd c = Ret a) \/ snd c = Raise e) done ->
  Exists (fun c => snd c = Raise e) done ->
  first_failure (B := B) done = Some (Raise e).
Proof.
  induction 1 as [| [i o] done Hhead Hrest IH]; intros Hex; [inversion Hex |].
  cbn [snd] in Hhead. destruct Hhead as [[a ->] | ->]; cbn [first_failure]; [| reflexivity].
  apply IH. inversion Hex as [? ? H | ? ? H]; subst; [discriminate H | exact H].
Qed.

Lemma gather_returns {A} (tasks : list (M A)) values :
  map snd tasks = map Ret values -> snd (gather tasks) = Ret values.
Proof.
  revert values. induction tasks as [| [t o] tasks IH]; intros values Hvalues.
  - destruct values; [reflexivity | discriminate].
  - destruct values as [| a values]; [discriminate |].
    cbn [map snd] in Hvalues. inversion Hvalues as [[Ho Hrest]]. subst o.
    cbn [gather]. specialize (IH values Hrest).
    destruct (gather tasks) as [t' rs]. cbn [snd] in *. now rewrite IH.
Qed.

Lemma gather_events {A} (tasks : list (M A)) : fst (gather tasks) = concat (map fst tasks).
Proof.
  induction tasks as [| [t o] tasks IH]; [reflexivity |].
  cbn [gather map concat fst]. destruct (gather tasks) as [t' rs]. cbn [fst] in *.
  now rewrite IH.
Qed.

(** The lookups of a run end the same for [gather] whatever the order in
    which they complete. *)
Lemma gather_completing_lookups env session usernames schedule :
  Permutation schedule (seq 0 (length usernames)) ->
  gather_completing schedule (map snd (tasks_for env session usernames))
  = gather (map snd (tasks_for env session usernames)).
Proof.
  intros Hperm.
  set (tasks := map snd (tasks_for env session usernames)).
  assert (Houtcomes : map snd tasks = map (last_activity env session) usernames).
  { unfold tasks, tasks_for. rewrite !map_map. reflexivity. }
  assert (Hlen : length tasks = length usernames).
  { unfold tasks, tasks_for. now rewrite !length_map. }
  rewrite <- Hlen in Hperm.
  rewrite (surjective_pairing (gather tasks)),
    (surjective_pairing (gather_completing schedule tasks)).
  f_equal; [unfold gather_completing; cbn [fst]; symmetry; apply gather_events |].
  destruct (Exists_dec (fun u => last_activity env session u = Raise ValueError) usernames)
    as [Hraise | Hreturn].
  { intros u. destruct (last_activity env session u) as [r | [] | ];
      (now left) || (right; discriminate). }
  - (* some lookup raises *)
    apply Exists_exists in Hraise. destruct Hraise as (u & Hu & Hraise).
    unfold tasks at 2. rewrite (gather_tasks_raises env session usernames u Hu Hraise).
    unfold gather_completing. cbn [snd]. rewrite Houtcomes.
    rewrite (first_failure_raises _ ValueError); [reflexivity | |].
    + apply Forall_forall. intros [i o] Hc. unfold completions in Hc.
      apply in_flat_map in Hc. destruct Hc as (j & _ & Hc).
      destruct (nth_error (map (last_activity env session) usernames) j) as [o' |] eqn:Hnth;
        [| destruct Hc].
      destruct Hc as [Hc | []]. injection Hc as <- <-. cbn [snd].
      rewrite nth_error_map in Hnth.
      destruct (nth_error usernames j) as [u' |]; [| discriminate].
      cbn [option_map] in Hnth. injection Hnth as <-.
      destruct (last_activity_cases env session u') as [[r Hr] | Hr];
        rewrite Hr; [left; now exists r | now right].
    + apply In_nth_error in Hu. destruct Hu as [i Hi].
      apply Exists_exists. exists (i, Raise ValueError). split; [| reflexivity].
      unfold completions. apply in_flat_map. exists i. split.
      * apply (Permutation_in _ (Permutation_sym Hperm)). apply in_seq.
        assert (i < length usernames) by (apply nth_error_Some; congruence). lia.
      * rewrite nth_error_map, Hi. cbn [option_map]. rewrite Hraise. now left.
  - (* every lookup returns *)
    assert (Hvalues : exists values,
               map (last_activity env session) usernames = map Ret values).
    { clear - Hreturn. induction usernames as [| u us IH]; [now exists [] |].
      destruct IH as [values Hvalues].
      { intros H. apply Hreturn. now right. }
      destruct (last_activity_cases env session u) as [[r Hr] | Hr].
      - exists (r :: values). cbn [map]. now rewrite Hr, Hvalues.
      - exfalso. apply Hreturn. now left. }
    destruct Hvalues as [values Hvalues]. rewrite <- Houtcomes in Hvalues.
    rewrite (gather_returns tasks values Hvalues).
    now rewrite (gather_completing_returns schedule tasks values Hperm Hvalues).
Qed.

(** Rows in order that hold the same rows at every instant, in the same
    order, are the same rows. *)
Lemma descending_rows_unique : forall l1 l2,
  StronglySorted descending l1 ->
  StronglySorted descending l2 ->
  (forall k, at_instant k l1 = at_instant k l2) ->
  l1 = l2.
Proof.
  assert (Hhead : forall x l, at_instant (instant (last_activity_of x)) (x :: l)
                              = x :: at_instant (instant (last_activity_of x)) l).
  { intros x l. unfold at_instant. cbn [filter]. now rewrite Z.eqb_refl. }
  assert (Hlater : forall x y l, StronglySorted descending (y :: l) ->
            (instant (last_activity_of y) < instant (last_activity_of x))%Z ->
            at_instant (instant (last_activity_of x)) (y :: l) = []).
  { intros x y l Hsorted Hlt. unfold at_instant.
    apply StronglySorted_inv in Hsorted. destruct Hsorted as [_ Hall].
    cbn [filter]. destruct (Z.eqb_spec (instant (last_activity_of y))
                                       (instant (last_activity_of x))); [lia |].
    clear - Hall Hlt. induction l as [| z l IH]; [reflexivity |].
    inversion Hall as [| ? ? Hz Hl]; subst. cbn [filter]. unfold descending in Hz.
    destruct (Z.eqb_spec (instant (last_activity_of z))
                         (instant (last_activity_of x))); [lia | now apply IH]. }
  induction l1 as [| x l1 IH]; intros l2 H1 H2 Hsame.
  - destruct l2 as [| y l2]; [reflexivity |].
    specialize (Hsame (instant (last_activity_of y))). rewrite Hhead in Hsame.
    discriminate Hsame.
  - destruct l2 as [| y l2].
    { specialize (Hsame (instant (last_activity_of x))). rewrite Hhead in Hsame.
      discriminate Hsame. }
    assert (Hkey : instant (last_activity_of x) = instant (last_activity_of y)).
    { destruct (Z.lt_trichotomy (instant (last_activity_of x))
                                (instant (last_activity_of y))) as [Hlt | [Heq | Hgt]].
      - pose proof (Hsame (instant (last_activity_of y))) as H.
        rewrite (Hlater y x l1 H1 Hlt), Hhead in H. discriminate H.
      - exact Heq.
      - pose proof (Hsame (instant (last_activity_of x))) as H.
        rewrite (Hlater x y l2 H2 Hgt), Hhead in H. discriminate H. }
    pose proof (Hsame (instant (last_activity_of x))) as Hfirst.
    rewrite Hhead, Hkey, Hhead in Hfirst. inversion Hfirst as [[Hxy Htail]]. subst y.
    f_equal. apply IH.
    + now apply StronglySorted_inv in H1.
    + now apply StronglySorted_inv in H2.
    + intros k. specialize (Hsame k). unfold at_instant in *. cbn [filter] in Hsame.
      destruct (instant (last_activity_of x) =? k)%Z; [now inversion Hsame | exact Hsame].
Qed.

(** * The claims *)

(** C1, as amended.  When the login occurs at most once in what each
    organization's enumeration returned, the mapping associates a username
    listed by some organization with exactly the organizations that list it,
    in the configured order and without duplicates. *)
Theorem all_members_lists_each_org_once fuel session t all_members username :
  build_all_members fuel session orgs [] = (t, Ret all_members) ->
  (forall org, In org orgs ->
     length (filter (is_login username) (enumerated fuel session org)) <= 1) ->
  (exists org, In org orgs /\ In username (map login (enumerated fuel session org))) ->
  let listed :=
    filter (fun org => existsb (is_login username) (enumerated fuel session org)) orgs in
  dict_getitem all_members username = Some listed
  /\ NoDup listed
  /\ forall org, In org listed
                 <-> In org orgs /\ In username (map login (enumerated fuel session org)).
Proof.
  intros Hrun Honce (org0 & Horg0 & Hlisted0). cbn zeta.
  assert (Hiff : forall org,
    In org (filter (fun org => existsb (is_login username) (enumerated fuel session org)) orgs)
    <-> In org orgs /\ In username (map login (enumerated fuel session org))).
  { intros org. now rewrite filter_In, existsb_is_login. }
  split; [| split; [| exact Hiff]].
  - rewrite (build_all_members_getitem _ _ _ _ _ _ username Hrun).
    rewrite listings_once by exact Honce.
    destruct (filter _ orgs) as [| o l] eqn:Hfilter; [| reflexivity].
    exfalso. assert (H : In org0 []) by (apply Hiff; auto). exact H.
  - apply NoDup_filter, orgs_NoDup.
Qed.

Lemma all_members_lists_each_org_once_witness :
  dict_getitem sample_all_members "bob" = Some ["ipython"; "jupyter"]
  /\ NoDup ["ipython"; "jupyter"].
Proof.
  destruct (all_members_lists_each_org_once 3 sample_session
              (fst (build_all_members 3 sample_session orgs [])) sample_all_members "bob")
    as (Hget & Hnodup & _).
  - vm_compute. reflexivity.
  - intros org Horg. unfold orgs in Horg. simpl in Horg.
    repeat (destruct Horg as [<- | Horg]; [vm_compute; lia |]). destruct Horg.
  - exists "ipython". split; [unfold orgs; simpl; tauto | vm_compute; tauto].
  - split; [exact Hget | exact Hnodup].
Defined.

(** A login returned on two pages of "ipython" gets "ipython" twice. *)
Lemma repeated_login_repeats_org : ~ lists_each_org_once_always.
Proof.
  intros Hclaim.
  destruct (build_all_members 3 repeating_session orgs []) as [t o] eqn:Hrun.
  pose proof Hrun as Hvalue. vm_compute in Hvalue. inversion Hvalue as [[Ht Ho]].
  rewrite <- Ho in Hrun. clear Hvalue.
  destruct (Hclaim 3 repeating_session t _ "alice" Hrun) as (l & Hget & Hnodup & _).
  - exists "ipython", "jupyter". unfold orgs. simpl.
    repeat split; try discriminate; try tauto; vm_compute; tauto.
  - vm_compute in Hget. inversion Hget; subst l.
    inversion Hnodup as [| x l' Hnotin _]; subst. apply Hnotin. now left.
Qed.

(** C2. When pages 1 to [n] of an organization are successful and non-empty
    and page [n + 1] is successful and empty, the enumerator requests pages
    1, 2, ..., [n + 1] with [per_page=100], in that order and nothing more,
    and returns the pages 1 to [n] joined in order: it halts exactly at the
    first empty page. *)
Theorem get_org_members_all_pages session org n fuel :
  (forall p, 1 <= p <= n -> full_page session org p) ->
  status (org_members session org (S n)) = 200%Z ->
  json (org_members session org (S n)) = [] ->
  n < fuel ->
  get_org_members fuel session org
    = (page_requests org 1 (S n), Ret (pages session org 1 n))
  /\ map url (requests (fst (get_org_members fuel session org)))
     = map (fun page => "https://api.github.com/orgs/" ++ org ++ "/members?page="
                          ++ str_nat page ++ "&per_page=100")%string
           (seq 1 (S n)).
Proof.
  intros Hfull Hstatus Hempty Hfuel.
  rewrite (get_org_members_stops_at_empty_page session org n fuel) by assumption.
  split; [reflexivity |]. cbn [fst]. rewrite requests_page_requests, map_map. reflexivity.
Qed.

Lemma get_org_members_all_pages_witness :
  get_org_members 3 sample_session "ipython"
  = (page_requests "ipython" 1 3,
     Ret [member "alice"; member "bob"; member "carol"]).
Proof.
  apply (get_org_members_all_pages sample_session "ipython" 2 3).
  - intros p Hp. assert (H : p = 1 \/ p = 2) by lia.
    destruct H as [-> | ->]; split; (reflexivity || discriminate).
  - reflexivity.
  - reflexivity.
  - lia.
Defined.

(** C3. If the rate-limit check succeeds and reports fewer than 10 remaining
    requests, the run ends at the check, and the rate-limit request is the
    only request it ever sends.  When the reset time is read, the run prints
    the two summary lines, the warning and the abort line and returns; when
    reading the reset time raises, the run ends there with that exception. *)
Theorem main_aborts_on_very_low_quota fuel env session :
  status (rate_limit session) = 200%Z ->
  (remaining (json (rate_limit session)) < 10)%Z ->
  requests (fst (main fuel env session)) = [RateLimit]
  /\ main fuel env session
     = match fromtimestamp env (reset (json (rate_limit session))) with
       | inr reset_time =>
           ([ Get RateLimit;
              Print ("Rate limit remaining: "
                       ++ str_Z (remaining (json (rate_limit session))));
              Print ("Rate limit resets " ++ naturaltime_of_datetime env reset_time);
              Print ("[yellow]Warning: Low rate limit ("
                       ++ str_Z (remaining (json (rate_limit session)))
                       ++ " remaining)[/yellow]");
              Print "[red]Aborting due to very low rate limit[/red]" ],
            Ret tt)
       | inl e => ([Get RateLimit], Raise e)
       end.
Proof.
  intros Hstatus Hlow. rewrite main_run, Hstatus. cbn [Z.eqb Pos.eqb].
  replace (remaining (json (rate_limit session)) <? 10)%Z with true
    by (symmetry; apply Z.ltb_lt; lia).
  destruct (fromtimestamp env (reset (json (rate_limit session)))); split; reflexivity.
Qed.

Lemma main_aborts_on_very_low_quota_witness :
  requests (fst (main 3 sample_env
                   (with_rate_limit (ok {| remaining := 5; reset := 0 |}) sample_session)))
  = [RateLimit]
  /\ main 3 sample_env
       (with_rate_limit (ok {| remaining := 5; reset := 253402300800 |}) sample_session)
     = ([Get RateLimit], Raise ValueError).
Proof.
  split.
  - apply (main_aborts_on_very_low_quota 3 sample_env
             (with_rate_limit (ok {| remaining := 5; reset := 0 |}) sample_session)).
    + reflexivity.
    + simpl. lia.
  - apply (main_aborts_on_very_low_quota 3 sample_env
             (with_rate_limit (ok {| remaining := 5; reset := 253402300800 |})
                sample_session)).
    + reflexivity.
    + simpl. lia.
Defined.

(** C4. When pages 1 to [n] of an organization are successful and non-empty
    and page [n + 1] comes back with a status other than 200, the enumerator
    stops there, reports the error on the console, and returns normally with
    exactly the members of pages 1 to [n]; the loop over the organizations
    records them and goes on with the next organization. *)
Theorem get_org_members_partial_on_error session org rest n fuel all_members :
  (forall p, 1 <= p <= n -> full_page session org p) ->
  status (org_members session org (S n)) <> 200%Z ->
  n < fuel ->
  get_org_members fuel session org
    = (page_requests org 1 (S n)
         ++ [Print (error_line org (status (org_members session org (S n))))],
       Ret (pages session org 1 n))
  /\ build_all_members fuel session (org :: rest) all_members
     = ((page_requests org 1 (S n)
           ++ [Print (error_line org (status (org_members session org (S n))))])
          ++ fst (build_all_members fuel session rest
                    (fold_left (add_member org) (pages session org 1 n) all_members)),
        snd (build_all_members fuel session rest
               (fold_left (add_member org) (pages session org 1 n) all_members))).
Proof.
  intros Hfull Hstatus Hfuel.
  pose proof (get_org_members_stops_at_error session org n fuel Hfull Hstatus Hfuel) as Hrun.
  split; [exact Hrun |].
  cbn [build_all_members]. rewrite Hrun, bind_run. reflexivity.
Qed.

Lemma get_org_members_partial_on_error_witness :
  get_org_members 3 sample_session "jupyter"
  = (page_requests "jupyter" 1 2 ++ [Print (error_line "jupyter" 502)],
     Ret [member "bob"; member "dave"]).
Proof.
  apply (get_org_members_partial_on_error sample_session "jupyter" [] 1 3 []).
  - intros p Hp. assert (H : p = 1) by lia. subst p. split; [reflexivity | discriminate].
  - discriminate.
  - lia.
Defined.

(** C5. A username whose events request comes back with a status other than
    200, or with status 200 and no events, gets no activity: the fetcher
    sends its one request and returns [None], and no row of the report
    carries that username. *)
Theorem no_activity_no_report_row fuel env session username :
  status (user_events session username) <> 200%Z
  \/ json (user_events session username) = [] ->
  get_user_activity env session username = ([Get (UserEvents username)], Ret None)
  /\ forall user_activities rows,
       report_of fuel env session user_activities rows ->
       ~ In username (map username_of rows).
Proof.
  intros Hnone.
  assert (Hrun : get_user_activity env session username
                 = ([Get (UserEvents username)], Ret None)).
  { unfold get_user_activity, get_events. rewrite bind_event.
    destruct Hnone as [Hstatus | Hempty].
    - apply Z.eqb_neq in Hstatus. now rewrite Hstatus.
    - rewrite Hempty. now destruct (status (user_events session username) =? 200)%Z. }
  split; [exact Hrun |].
  intros ua rows Hreport Hin.
  destruct (report_of_rows _ _ _ _ _ Hreport) as (Hperm & _ & _).
  destruct (report_of_gathered _ _ _ _ _ Hreport) as (te & d & _ & _ & Hnames & _).
  apply (Permutation_in _ (Permutation_sym (Permutation_map username_of Hperm))) in Hin.
  rewrite Hnames in Hin. apply filter_In in Hin. destruct Hin as [_ Hhas].
  unfold has_activity, last_activity in Hhas. rewrite Hrun in Hhas. discriminate.
Qed.

Lemma no_activity_no_report_row_witness :
  get_user_activity sample_env sample_session "alice" = ([Get (UserEvents "alice")], Ret None)
  /\ ~ In "alice" (map username_of sample_rows).
Proof.
  destruct (no_activity_no_report_row 3 sample_env sample_session "alice"
              (or_intror eq_refl)) as [Hnone Hrows].
  split; [exact Hnone | exact (Hrows _ _ sample_report)].
Defined.

(** C6, as amended.  When the events request succeeds with at least one event, the
    fetcher returns what [fromisoformat] makes of the first event's
    [created_at] after [replace('Z', '+00:00')], whatever the later events
    are.  For a timestamp as the platform writes it, [YYYY-MM-DDTHH:MM:SSZ],
    the replaced text is what [isoformat] gives for that UTC instant, so the
    result is that instant, aware. *)
Theorem get_user_activity_first_event env session username events_0 rest :
  status (user_events session username) = 200%Z ->
  json (user_events session username) = events_0 :: rest ->
  get_user_activity env session username
    = ([Get (UserEvents username)],
       match fromisoformat env (replace "Z" "+00:00" (created_at events_0)) with
       | Some last_activity => Ret (Some last_activity)
       | None => Raise ValueError
       end)
  /\ forall dt,
       inverts_isoformat env ->
       utc_seconds dt = true ->
       created_at events_0 = github_timestamp dt ->
       replace "Z" "+00:00" (created_at events_0) = utc_isoformat dt
       /\ get_user_activity env session username
          = ([Get (UserEvents username)], Ret (Some dt))
       /\ aware dt = true.
Proof.
  intros Hstatus Hevents.
  assert (Hrun : get_user_activity env session username
    = ([Get (UserEvents username)],
       match fromisoformat env (replace "Z" "+00:00" (created_at events_0)) with
       | Some last_activity => Ret (Some last_activity)
       | None => Raise ValueError
       end)).
  { unfold get_user_activity, get_events. rewrite bind_event, Hstatus, Hevents.
    cbn [Z.eqb Pos.eqb]. now destruct (fromisoformat env _). }
  split; [exact Hrun |].
  intros dt Hinverse Hutc Htext.
  assert (Hvalid : valid_datetime dt = true).
  { unfold utc_seconds in Hutc. rewrite !andb_true_iff in Hutc. tauto. }
  assert (Hreplace : replace "Z" "+00:00" (created_at events_0) = utc_isoformat dt).
  { rewrite Htext. now apply replace_github_timestamp. }
  repeat split.
  - exact Hreplace.
  - rewrite Hrun, Hreplace, (Hinverse dt Hutc). reflexivity.
  - unfold utc_seconds in Hutc. rewrite !andb_true_iff in Hutc.
    unfold aware. destruct (tzinfo dt); [reflexivity | destruct Hutc; discriminate].
Qed.

(** The first of bob's two events is the older one, and it is the one
    returned. *)
Lemma get_user_activity_first_event_witness :
  get_user_activity sample_env sample_session "bob"
  = ([Get (UserEvents "bob")],
     Ret (Some {| year := 2024; month := 5; day := 2; hour := 3; minute := 4;
                  second := 5; microsecond := 0; tzinfo := Some 0%Z |})).
Proof.
  refine (proj1 (proj2 (proj2 (get_user_activity_first_event sample_env sample_session "bob"
            (event_at "2024-05-02T03:04:05Z") [event_at "2024-05-30T00:00:00Z"] _ _)
            {| year := 2024; month := 5; day := 2; hour := 3; minute := 4;
               second := 5; microsecond := 0; tzinfo := Some 0%Z |} _ _ _))).
  - reflexivity.
  - reflexivity.
  - exact parse_isoformat_utc_isoformat.
  - reflexivity.
  - reflexivity.
Defined.

(** A first event stamped [2024-05-02T03:04:05], without [Z], is read as a
    naive datetime. *)
Lemma timestamp_without_Z_is_naive : ~ first_event_always_aware.
Proof.
  intros Hclaim.
  destruct (Hclaim sample_env naive_session "alice" (event_at "2024-05-02T03:04:05") []
              parse_isoformat_utc_isoformat eq_refl eq_refl)
    as (last_seen & Hrun & Haware).
  vm_compute in Hrun. injection Hrun as <-. discriminate Haware.
Qed.

(** C7. The rows behind the printed lines are the gathered rows, ordered
    from the most recent activity to the oldest; rows with the same instant
    stand in the order in which they were gathered, which is the order of
    the usernames in the mapping. *)
Theorem report_most_recent_first fuel env session user_activities rows :
  report_of fuel env session user_activities rows ->
  (exists earlier,
      printed (fst (main_after_check fuel env session))
      = earlier ++ map (report_line env) rows)
  /\ Permutation user_activities rows
  /\ StronglySorted descending rows
  /\ (forall k, at_instant k rows = at_instant k user_activities)
  /\ exists te all_members,
       build_all_members fuel session orgs [] = (te, Ret all_members)
       /\ map username_of user_activities
          = filter (has_activity env session) (dict_keys all_members).
Proof.
  intros Hreport.
  destruct (report_of_rows _ _ _ _ _ Hreport) as (Hperm & Hsorted & Hstable).
  destruct (report_of_gathered _ _ _ _ _ Hreport) as (te & d & Hd & _ & Hnames & _).
  repeat split; try assumption.
  - destruct Hreport as (t0 & _ & _ & ->). exists (printed t0). cbn [fst].
    unfold printed. rewrite flat_map_app. f_equal.
    clear. induction rows as [| row rows IH]; [reflexivity |].
    cbn [map flat_map app]. now rewrite IH.
  - exists te, d. auto.
Qed.

Lemma report_most_recent_first_witness :
  StronglySorted descending tied_rows
  /\ at_instant (instant (utc 2024 5 1 0 0 0)) tied_rows
     = [ ("alice", utc 2024 5 1 0 0 0, ["ipython"]);
         ("carol", utc 2024 5 1 0 0 0, ["ipython"]) ].
Proof.
  destruct (report_most_recent_first 3 sample_env tied_session
              tied_user_activities tied_rows tied_report)
    as (_ & _ & Hsorted & Hstable & _).
  split; [exact Hsorted |]. rewrite Hstable. reflexivity.
Defined.

(** C8. If the rate-limit request comes back with a status other than 200,
    nothing is printed about the rate limit, neither warning nor abort, and
    the run goes on with everything below the check, starting with the first
    page of the first organization. *)
Theorem main_proceeds_when_rate_check_fails fuel env session :
  status (rate_limit session) <> 200%Z ->
  main fuel env session
    = (Get RateLimit :: fst (main_after_check fuel env session),
       snd (main_after_check fuel env session))
  /\ exists t, fst (main (S fuel) env session)
               = Get RateLimit :: Get (OrgMembers "binder-examples" 1) :: t.
Proof.
  intros Hstatus. apply Z.eqb_neq in Hstatus.
  assert (Hmain : forall f, main f env session
    = (Get RateLimit :: fst (main_after_check f env session),
       snd (main_after_check f env session))).
  { intros f. unfold main, get_rate_limit. rewrite bind_event, Hstatus. reflexivity. }
  split; [apply Hmain |].
  rewrite Hmain. cbn [fst].
  destruct (main_after_check_first_request fuel env session) as [t ->].
  now exists t.
Qed.

Lemma main_proceeds_when_rate_check_fails_witness :
  main 3 sample_env
    (with_rate_limit (failed 403 {| remaining := 0; reset := 0 |}) sample_session)
  = (Get RateLimit
       :: fst (main_after_check 3 sample_env
                 (with_rate_limit (failed 403 {| remaining := 0; reset := 0 |})
                    sample_session)),
     snd (main_after_check 3 sample_env
            (with_rate_limit (failed 403 {| remaining := 0; reset := 0 |})
               sample_session))).
Proof.
  apply (main_proceeds_when_rate_check_fails 3 sample_env
           (with_rate_limit (failed 403 {| remaining := 0; reset := 0 |}) sample_session)).
  discriminate.
Defined.

(** C9. In a run that prints its report, the mapping has every login as a
    key once; after the enumeration, which sends member requests only, the
    run sends one events request for each key, and the report has at most
    one row, hence one line, for a username. *)
Theorem one_request_and_one_row_per_username fuel env session user_activities rows :
  report_of fuel env session user_activities rows ->
  exists te all_members,
    build_all_members fuel session orgs [] = (te, Ret all_members)
    /\ Forall org_request (requests te)
    /\ NoDup (dict_keys all_members)
    /\ fst (main_after_check fuel env session)
       = te ++ event_requests (dict_keys all_members)
            ++ map (fun row => Print (report_line env row)) rows
    /\ NoDup (map username_of rows)
    /\ incl (map username_of rows) (dict_keys all_members)
    /\ forall username,
         In username (dict_keys all_members)
         <-> exists org, In org orgs
                         /\ In username (map login (enumerated fuel session org)).
Proof.
  intros Hreport.
  destruct (report_of_rows _ _ _ _ _ Hreport) as (Hperm & _ & _).
  destruct (report_of_gathered _ _ _ _ _ Hreport) as (te & d & Hd & Htrace & Hnames & _).
  assert (Hkeys : NoDup (dict_keys d)).
  { eapply build_all_members_NoDup; [exact Hd | constructor]. }
  pose proof (Permutation_map username_of Hperm) as Hperm_names.
  exists te, d. split; [exact Hd |]. split; [| split; [exact Hkeys |]].
  { pose proof (build_all_members_requests session fuel orgs []) as Hreq.
    now rewrite Hd in Hreq. }
  split; [exact Htrace |]. split; [| split].
  - apply (Permutation_NoDup Hperm_names). rewrite Hnames. now apply NoDup_filter.
  - intros u Hu. apply (Permutation_in _ (Permutation_sym Hperm_names)) in Hu.
    rewrite Hnames in Hu. now apply filter_In in Hu.
  - intros u. exact (build_all_members_keys _ _ _ _ _ u Hd).
Qed.

Lemma one_request_and_one_row_per_username_witness :
  exists te all_members,
    build_all_members 3 tied_session orgs [] = (te, Ret all_members)
    /\ NoDup (map username_of tied_rows).
Proof.
  destruct (one_request_and_one_row_per_username 3 sample_env tied_session
              tied_user_activities tied_rows tied_report)
    as (te & d & Hd & _ & _ & _ & Hrows & _ & _).
  exists te, d. split; assumption.
Defined.

(** C10. With the responses to the requests it sends and the environment,
    clock included, fixed, a run is fixed: two platforms that answer every
    request of the run alike give the same events in the same order and the
    same end.  What a run leaves open does not change it: the keys of the
    mapping are the enumerated logins in the order of their first
    occurrence; in whatever order the lookups complete, [gather] ends as it
    does when they complete in turn, with each result at the position of its
    username; and any rows that meet the contract of the sort, in order and
    stable, are the rows printed. *)
Theorem main_deterministic fuel env s1 s2 :
  (forall r, In r (requests (fst (main fuel env s1))) -> agree s1 s2 r) ->
  main fuel env s1 = main fuel env s2
  /\ (forall te all_members,
        build_all_members fuel s1 orgs [] = (te, Ret all_members) ->
        dict_keys all_members
        = rev (nodup string_dec (rev (map login (flat_map (enumerated fuel s1) orgs))))
        /\ forall schedule,
             Permutation schedule (seq 0 (length (dict_keys all_members))) ->
             gather_completing schedule (map snd (make_tasks env s1 all_members))
             = gather (map snd (make_tasks env s1 all_members)))
  /\ (forall user_activities rows other_rows,
        report_of fuel env s1 user_activities rows ->
        sorted_by_contract user_activities other_rows ->
        other_rows = rows).
Proof.
  intros Hagree. split; [now apply main_agree | split].
  - intros te d Hd. split.
    + rewrite (build_all_members_dict_keys _ _ _ _ _ _ Hd).
      now rewrite add_keys_first_occurrences by constructor.
    + intros schedule Hperm. unfold make_tasks.
      fold (tasks_for env s1 (dict_keys d)).
      now apply gather_completing_lookups.
  - intros ua rows other Hreport [Hsorted Hstable].
    destruct (report_of_rows _ _ _ _ _ Hreport) as (_ & Hrows & Hkeep).
    apply descending_rows_unique; try assumption.
    intros k. now rewrite Hstable, Hkeep.
Qed.

Lemma main_deterministic_witness :
  main 3 sample_env sample_session = main 3 sample_env other_session
  /\ gather_completing [3; 1; 0; 2] (map snd (make_tasks sample_env sample_session
                                                sample_all_members))
     = (event_requests ["alice"; "bob"; "carol"; "dave"],
        Ret [None; Some (utc 2024 5 2 3 4 5); Some (utc 2024 5 20 10 0 0); None]).
Proof.
  destruct (main_deterministic 3 sample_env sample_session other_session)
    as (Hsame & Horder & _).
  - intros r Hr. vm_compute in Hr.
    repeat (destruct Hr as [<- | Hr]; [reflexivity |]). destruct Hr.
  - split; [exact Hsame |].
    destruct (Horder (fst (build_all_members 3 sample_session orgs []))
                sample_all_members eq_refl) as [_ Hgather].
    rewrite (Hgather [3; 1; 0; 2]); [reflexivity |].
    apply NoDup_Permutation.
    + repeat constructor; simpl; lia.
    + apply seq_NoDup.
    + intros x. simpl. lia.
Defined.

(** * Further properties *)

(** ** Pagination in general *)

Lemma get_org_members_from_Ret session org fuel : forall page acc t members,
  get_org_members_from fuel session org page acc = (t, Ret members) ->
  exists n,
    n < fuel
    /\ (forall p, page <= p < page + n -> full_page session org p)
    /\ ~ full_page session org (page + n)
    /\ members = acc ++ pages session org page n
    /\ t = page_requests org page (S n)
           ++ (if (status (org_members session org (page + n)) =? 200)%Z then []
               else [Print (error_line org (status (org_members session org (page + n))))]).
Proof.
  induction fuel as [| fuel IH]; intros page acc t members Hrun; [discriminate |].
  cbn [get_org_members_from] in Hrun. unfold get_members in Hrun.
  rewrite bind_event in Hrun.
  destruct (status (org_members session org page) =? 200)%Z eqn:Hstatus; cbn [negb] in Hrun.
  - destruct (json (org_members session org page)) as [| m ms] eqn:Hjson.
    + inversion Hrun; subst. exists 0. rewrite Nat.add_0_r, Hstatus.
      split; [lia |]. split; [intros p Hp; lia |]. split; [intros [_ H]; now apply H |].
      unfold pages, page_requests. cbn. now rewrite !app_nil_r.
    + destruct (get_org_members_from fuel session org (S page) (acc ++ m :: ms))
        as [t' o] eqn:Hrest.
      cbn [fst snd] in Hrun. inversion Hrun; subst.
      destruct (IH _ _ _ _ Hrest) as (n & Hn & Hfull & Hstop & -> & ->).
      exists (S n). rewrite Nat.add_succ_r. cbn [Nat.add] in *.
      split; [lia |]. split; [| split; [exact Hstop | split]].
      * intros p Hp. destruct (Nat.eq_dec p page) as [-> | Hne].
        -- split; [now apply Z.eqb_eq | rewrite Hjson; discriminate].
        -- apply Hfull. lia.
      * unfold pages. cbn [seq map concat]. rewrite Hjson, <- app_assoc. reflexivity.
      * reflexivity.
  - unfold print in Hrun. rewrite bind_event in Hrun. inversion Hrun; subst.
    exists 0. rewrite Nat.add_0_r, Hstatus.
    split; [lia |]. split; [intros p Hp; lia |].
    split; [intros [H _]; apply Z.eqb_neq in Hstatus; now apply Hstatus |].
    unfold pages, page_requests. cbn. now rewrite !app_nil_r.
Qed.

Lemma get_org_members_from_never_raises session org fuel : forall page acc e,
  snd (get_org_members_from fuel session org page acc) <> Raise e.
Proof.
  induction fuel as [| fuel IH]; intros page acc e; [discriminate |].
  cbn [get_org_members_from]. unfold get_members. rewrite bind_event. cbn [snd].
  destruct (negb (status (org_members session org page) =? 200)%Z); [discriminate |].
  destruct (json (org_members session org page)); [discriminate | apply IH].
Qed.

Lemma build_all_members_never_raises session fuel configured : forall d e,
  snd (build_all_members fuel session configured d) <> Raise e.
Proof.
  induction configured as [| org rest IH]; intros d e; [discriminate |].
  cbn [build_all_members].
  destruct (get_org_members fuel session org) as [t1 o1] eqn:Hfirst.
  destruct o1 as [members | e' | ]; cbn [bind snd].
  - specialize (IH (fold_left (add_member org) members d) e).
    now destruct (build_all_members fuel session rest _).
  - exfalso. apply (get_org_members_from_never_raises session org fuel 1 [] e').
    fold (get_org_members fuel session org). now rewrite Hfirst.
  - discriminate.
Qed.

(** ** The listing and the token *)

(** X1. As long as the pages of an organization are successful and
    non-empty the listing goes on: after [k] rounds it has asked for pages 1
    to [k], one after the other, and has not returned.  Nothing but an empty
    or failed page ends it. *)
Theorem get_org_members_goes_on_while_pages_are_full session org fuel :
  (forall p, 1 <= p <= fuel -> full_page session org p) ->
  get_org_members fuel session org = (page_requests org 1 fuel, OutOfFuel).
Proof.
  intros Hfull. unfold get_org_members.
  rewrite <- (Nat.add_0_r fuel) at 1.
  rewrite get_org_members_from_full_pages by (intros p Hp; apply Hfull; lia).
  cbn [get_org_members_from fst snd]. now rewrite app_nil_r.
Qed.

Lemma get_org_members_goes_on_while_pages_are_full_witness :
  get_org_members 5 endless_session "ipython" = (page_requests "ipython" 1 5, OutOfFuel).
Proof.
  apply (get_org_members_goes_on_while_pages_are_full endless_session "ipython" 5).
  intros p Hp. split; [reflexivity | discriminate].
Defined.

(** X2. Whenever the listing of an organization returns, it has read some
    number [n] of successful non-empty pages, asked for page [n + 1], found
    it failed or empty, and returns exactly pages 1 to [n] in order; it has
    sent those [n + 1] requests and no other, and has printed one line, the
    error line, if page [n + 1] failed and nothing otherwise. *)
Theorem get_org_members_returns_the_pages_before_a_stop session org fuel t members :
  get_org_members fuel session org = (t, Ret members) ->
  exists n,
    n < fuel
    /\ (forall p, 1 <= p <= n -> full_page session org p)
    /\ ~ full_page session org (S n)
    /\ members = pages session org 1 n
    /\ t = page_requests org 1 (S n)
           ++ (if (status (org_members session org (S n)) =? 200)%Z then []
               else [Print (error_line org (status (org_members session org (S n))))]).
Proof.
  unfold get_org_members. intros Hrun. apply get_org_members_from_Ret in Hrun.
  destruct Hrun as (n & Hn & Hfull & Hstop & Hmembers & Ht).
  exists n. cbn [Nat.add app] in *.
  split; [exact Hn |]. split; [intros p Hp; apply Hfull; lia |].
  split; [exact Hstop |]. split; [exact Hmembers | exact Ht].
Qed.

Lemma get_org_members_returns_the_pages_before_a_stop_witness :
  exists n,
    n < 3
    /\ [member "bob"; member "dave"] = pages sample_session "jupyter" 1 n
    /\ ~ full_page sample_session "jupyter" (S n).
Proof.
  destruct (get_org_members_returns_the_pages_before_a_stop sample_session "jupyter" 3
              (page_requests "jupyter" 1 2 ++ [Print (error_line "jupyter" 502)])
              [member "bob"; member "dave"] eq_refl)
    as (n & Hn & _ & Hstop & Hmembers & _).
  exists n. split; [exact Hn | split; [exact Hmembers | exact Hstop]].
Defined.

(** X4. Without a token, unset or empty, the script prints one error line
    and exits with code 1 without entering [main]; with a token it runs
    [main].  So the script sends no request at all exactly when the token is
    missing or empty. *)
Theorem script_sends_nothing_without_token token fuel env session :
  (not_token token = true ->
   script token fuel env session
   = ([Print "[red]Error: GH_TOKEN environment variable not set[/red]"], SystemExit 1))
  /\ (not_token token = false ->
      script token fuel env session
      = (fst (main fuel env session), Completed (snd (main fuel env session))))
  /\ (requests (fst (script token fuel env session)) = []
      <-> token = None \/ token = Some ""%string).
Proof.
  unfold script. split; [now intros -> | split].
  - intros ->. now destruct (main fuel env session).
  - destruct token as [[| c token] |]; cbn [not_token].
    + split; [auto | reflexivity].
    + destruct (main_first_request fuel env session) as [t Ht].
      destruct (main fuel env session) as [t' o]. cbn [fst] in *. subst t'.
      split; [discriminate | intros [H | H]; discriminate].
    + split; [auto | reflexivity].
Qed.

Lemma script_sends_nothing_without_token_witness :
  script (Some ""%string) 3 sample_env sample_session
  = ([Print "[red]Error: GH_TOKEN environment variable not set[/red]"], SystemExit 1)
  /\ requests (fst (script (Some "ghp_token"%string) 3 sample_env sample_session)) <> [].
Proof.
  destruct (script_sends_nothing_without_token (Some ""%string) 3 sample_env sample_session)
    as (Hstop & _ & _).
  split; [exact (Hstop eq_refl) |].
  intros H.
  apply (script_sends_nothing_without_token (Some "ghp_token"%string) 3
           sample_env sample_session) in H.
  destruct H as [H | H]; discriminate.
Defined.

(** ** The mapping in general *)

(** X5. What the mapping holds for a username, in general: each configured
    organization in turn, repeated once for every occurrence of the login in
    what the listing of that organization returned; a username no listing
    returned has no entry. *)
Theorem all_members_repeats_org_per_occurrence fuel session t all_members username :
  build_all_members fuel session orgs [] = (t, Ret all_members) ->
  dict_getitem all_members username =
    match flat_map (fun org =>
                      repeat org (length (filter (is_login username)
                                            (enumerated fuel session org)))) orgs with
    | [] => None
    | user_orgs => Some user_orgs
    end.
Proof.
  intros Hrun. rewrite (build_all_members_getitem _ _ _ _ _ _ username Hrun).
  unfold listings. cbn [dict_getitem].
  replace (flat_map (fun org => map (fun _ => org)
                                  (filter (is_login username) (enumerated fuel session org)))
             orgs)
    with (flat_map (fun org => repeat org (length (filter (is_login username)
                                                    (enumerated fuel session org)))) orgs).
  - now destruct (flat_map _ orgs).
  - apply flat_map_ext. intros org. symmetry. apply map_const_repeat.
Qed.

Lemma all_members_repeats_org_per_occurrence_witness :
  dict_getitem [("alice", ["ipython"; "ipython"; "jupyter"])] "alice"
  = Some ["ipython"; "ipython"; "jupyter"].
Proof.
  exact (all_members_repeats_org_per_occurrence 3 repeating_session
           (fst (build_all_members 3 repeating_session orgs []))
           [("alice", ["ipython"; "ipython"; "jupyter"])] "alice" eq_refl).
Defined.

(** X6. The keys of the mapping are the logins returned by the listings,
    taken organization by organization and page by page, each login kept
    where it first occurs.  This is the order in which the activity
    requests are sent. *)
Theorem all_members_keys_in_order_of_first_occurrence fuel env session t all_members :
  build_all_members fuel session orgs [] = (t, Ret all_members) ->
  dict_keys all_members
  = rev (nodup string_dec (rev (map login (flat_map (enumerated fuel session) orgs))))
  /\ map fst (make_tasks env session all_members) = dict_keys all_members.
Proof.
  intros Hrun. split.
  - rewrite (build_all_members_dict_keys _ _ _ _ _ _ Hrun).
    now rewrite add_keys_first_occurrences by constructor.
  - unfold make_tasks. rewrite map_map. apply map_id.
Qed.

Lemma all_members_keys_in_order_of_first_occurrence_witness :
  dict_keys sample_all_members = ["alice"; "bob"; "carol"; "dave"]
  /\ map login (flat_map (enumerated 3 sample_session) orgs)
     = ["alice"; "bob"; "carol"; "bob"; "dave"].
Proof.
  split; [| reflexivity].
  exact (proj1 (all_members_keys_in_order_of_first_occurrence 3 sample_env sample_session
                  (fst (build_all_members 3 sample_session orgs []))
                  sample_all_members eq_refl)).
Defined.

(** X7. Going through further organizations only extends the mapping: the
    usernames already in it stay, in their order, new ones come after them,
    and a list already recorded for a username is only appended to. *)
Theorem build_all_members_only_extends fuel session configured d t d' :
  build_all_members fuel session configured d = (t, Ret d') ->
  (exists new_keys, dict_keys d' = dict_keys d ++ new_keys)
  /\ forall username user_orgs,
       dict_getitem d username = Some user_orgs ->
       exists more, dict_getitem d' username = Some (user_orgs ++ more).
Proof.
  intros Hrun. split.
  - rewrite (build_all_members_dict_keys _ _ _ _ _ _ Hrun). apply add_keys_prefix.
  - intros u l Hl. rewrite (build_all_members_getitem _ _ _ _ _ _ u Hrun).
    unfold orgs_so_far. rewrite Hl.
    destruct (listings fuel session u configured) as [| o more].
    + exists []. now rewrite app_nil_r.
    + now exists (o :: more).
Qed.

Lemma build_all_members_only_extends_witness :
  exists more,
    dict_getitem [("bob", ["numpy"; "ipython"; "jupyter"]); ("alice", ["ipython"]);
                  ("carol", ["ipython"]); ("dave", ["jupyter"])] "bob"
    = Some (["numpy"] ++ more).
Proof.
  exact (proj2 (build_all_members_only_extends 3 sample_session ["ipython"; "jupyter"]
                  [("bob", ["numpy"])]
                  (fst (build_all_members 3 sample_session ["ipython"; "jupyter"]
                          [("bob", ["numpy"])]))
                  [("bob", ["numpy"; "ipython"; "jupyter"]); ("alice", ["ipython"]);
                   ("carol", ["ipython"]); ("dave", ["jupyter"])] eq_refl)
           "bob" ["numpy"] eq_refl).
Defined.

(** ** The activity requests and the report in general *)

Lemma user_activities_loop_no_events d zipped : forall acc,
  fst (user_activities_loop d zipped acc) = [].
Proof.
  induction zipped as [| [[u task] [la |]] rest IH]; intros acc; cbn [user_activities_loop].
  - reflexivity.
  - destruct (dict_getitem d u); [apply IH | reflexivity].
  - apply IH.
Qed.

Lemma report_requests env ua : requests (fst (report env ua)) = [].
Proof.
  unfold report, sorted_reverse. destruct (sort (rev ua)); [| reflexivity].
  rewrite bind_ret_l, print_rows_run. cbn [fst].
  rewrite <- (requests_prints (map (report_line env) (rev l))). now rewrite map_map.
Qed.

(** The requests of a run below the check, however it ends. *)
Lemma main_after_check_requests fuel env session :
  exists member_requests usernames,
    requests (fst (main_after_check fuel env session))
    = member_requests ++ map UserEvents usernames
    /\ Forall org_request member_requests
    /\ NoDup usernames.
Proof.
  unfold main_after_check, gather_user_activities.
  pose proof (build_all_members_requests session fuel orgs []) as Hmembers.
  destruct (build_all_members fuel session orgs []) as [te [d | e | ]] eqn:Hbuild;
    cbn [fst] in Hmembers.
  - exists (requests te), (dict_keys d).
    split; [| split; [exact Hmembers |
                      eapply build_all_members_NoDup; [exact Hbuild | constructor]]].
    rewrite bind_run. cbv zeta. unfold make_tasks.
    fold (tasks_for env session (dict_keys d)).
    pose proof (gather_tasks_requests env session (dict_keys d)) as Hgather.
    destruct (gather (map snd (tasks_for env session (dict_keys d)))) as [tg [results | e | ]];
      cbn [fst] in Hgather; subst tg.
    + rewrite bind_run.
      pose proof (user_activities_loop_no_events d
                    (combine (tasks_for env session (dict_keys d)) results) []) as Hloop.
      destruct (user_activities_loop d _ []) as [tl [ua | e | ]]; cbn [fst snd] in *;
        subst tl; cbn [bind fst snd app].
      * pose proof (report_requests env ua) as Hreport.
        destruct (report env ua) as [tr o]. cbn [fst] in *.
        rewrite !app_nil_r, !requests_app, Hreport, app_nil_r, requests_event_requests.
        reflexivity.
      * rewrite !app_nil_r, requests_app, requests_event_requests. reflexivity.
      * rewrite !app_nil_r, requests_app, requests_event_requests. reflexivity.
    + cbn [bind fst snd]. rewrite requests_app, requests_event_requests. reflexivity.
    + cbn [bind fst snd]. rewrite requests_app, requests_event_requests. reflexivity.
  - exists (requests te), []. cbn [bind fst map]. rewrite app_nil_r.
    split; [reflexivity | split; [exact Hmembers | constructor]].
  - exists (requests te), []. cbn [bind fst map]. rewrite app_nil_r.
    split; [reflexivity | split; [exact Hmembers | constructor]].
Qed.

(** A sort over rows of one kind, aware or naive, returns. *)
Lemma insert_same_kind b x l :
  aware (last_activity_of x) = b ->
  Forall (fun y => aware (last_activity_of y) = b) l ->
  insert x l = Some (insert_by_instant x l).
Proof.
  intros Hx. induction 1 as [| y l Hy Hl IH]; [reflexivity |].
  cbn [insert insert_by_instant]. unfold datetime_lt. rewrite Hx, Hy, Bool.eqb_reflx.
  destruct (instant (last_activity_of y) <? instant (last_activity_of x))%Z;
    [now rewrite IH | reflexivity].
Qed.

Lemma sort_same_kind b l :
  Forall (fun y => aware (last_activity_of y) = b) l ->
  sort l = Some (sort_by_instant l).
Proof.
  induction 1 as [| x l Hx Hl IH]; [reflexivity |].
  cbn [sort sort_by_instant fold_right]. fold (sort_by_instant l). rewrite IH.
  apply (insert_same_kind b); [exact Hx |].
  exact (Permutation_Forall (sort_Permutation l) Hl).
Qed.

(** Inserting into rows of the other kind fails at the first comparison. *)
Lemma insert_other_kind x y l :
  aware (last_activity_of y) <> aware (last_activity_of x) ->
  insert x (y :: l) = None.
Proof.
  intros Hkind. cbn [insert]. unfold datetime_lt.
  destruct (Bool.eqb (aware (last_activity_of y)) (aware (last_activity_of x))) eqn:E;
    [| reflexivity].
  apply Bool.eqb_prop in E. contradiction.
Qed.

Lemma sort_mixed l a b :
  In a l -> In b l ->
  aware (last_activity_of a) = true -> aware (last_activity_of b) = false ->
  sort l = None.
Proof.
  revert a b. induction l as [| x l IH]; intros a b Ha Hb Haware Hnaive; [destruct Ha |].
  cbn [sort]. destruct (sort l) as [s |] eqn:Hsort; [| reflexivity].
  pose proof (sort_Some _ _ Hsort) as Hs. subst s.
  (* the rows after [x] are of one kind, or the sort of them had failed *)
  assert (Hrest : forall y z, In y l -> In z l ->
                    aware (last_activity_of y) = aware (last_activity_of z)).
  { intros y z Hy Hz.
    destruct (aware (last_activity_of y)) eqn:Ey, (aware (last_activity_of z)) eqn:Ez;
      try reflexivity.
    - discriminate (IH y z Hy Hz Ey Ez).
    - discriminate (IH z y Hz Hy Ez Ey). }
  assert (Hother : exists y, In y l
                     /\ aware (last_activity_of y) <> aware (last_activity_of x)).
  { destruct Ha as [<- | Ha], Hb as [<- | Hb].
    - congruence.
    - exists b. split; [exact Hb | congruence].
    - exists a. split; [exact Ha | congruence].
    - rewrite (Hrest a b Ha Hb) in Haware. congruence. }
  destruct Hother as (y & Hy & Hkind).
  destruct (sort_by_instant l) as [| z s] eqn:Hsorted.
  - apply (Permutation_in _ (sort_Permutation l)) in Hy. rewrite Hsorted in Hy. destruct Hy.
  - apply insert_other_kind.
    assert (Hz : In z l).
    { apply (Permutation_in _ (Permutation_sym (sort_Permutation l))).
      rewrite Hsorted. now left. }
    now rewrite (Hrest z y Hz Hy).
Qed.

(** ** Runs without members, with rejected or mixed timestamps *)

(** X8. If no organization has a successful non-empty first page, the run
    below the check asks once for the first page of each organization, in
    the configured order, sends no events request, prints no report line and
    ends normally: the report is empty. *)
Theorem no_members_empty_report fuel env session :
  0 < fuel ->
  (forall org, In org orgs -> ~ full_page session org 1) ->
  requests (fst (main_after_check fuel env session))
  = map (fun org => OrgMembers org 1) orgs
  /\ snd (main_after_check fuel env session) = Ret tt
  /\ report_of fuel env session [] [].
Proof.
  intros Hfuel Hnone.
  assert (Hbuild : forall configured d,
    (forall org, In org configured -> ~ full_page session org 1) ->
    exists te, build_all_members fuel session configured d = (te, Ret d)
               /\ requests te = map (fun org => OrgMembers org 1) configured).
  { induction configured as [| org rest IH]; intros d Hrest.
    - exists []. split; reflexivity.
    - destruct (IH d (fun o Ho => Hrest o (or_intror Ho))) as (te & Hte & Hreq).
      assert (Hfirst : exists t1, get_org_members fuel session org = (t1, Ret [])
                                  /\ requests t1 = [OrgMembers org 1]).
      { destruct (Z.eqb_spec (status (org_members session org 1)) 200) as [Hs | Hs].
        - exists (page_requests org 1 1). split; [| reflexivity].
          apply (get_org_members_stops_at_empty_page session org 0 fuel);
            [intros p Hp; lia | exact Hs | | exact Hfuel].
          destruct (json (org_members session org 1)) eqn:Hjson; [reflexivity |].
          exfalso. apply (Hrest org (or_introl eq_refl)).
          split; [exact Hs | rewrite Hjson; discriminate].
        - exists (page_requests org 1 1
                    ++ [Print (error_line org (status (org_members session org 1)))]).
          split; [| reflexivity].
          apply (get_org_members_stops_at_error session org 0 fuel);
            [intros p Hp; lia | exact Hs | exact Hfuel]. }
      destruct Hfirst as (t1 & Hfirst & Hreq1).
      exists (t1 ++ te). cbn [build_all_members]. rewrite Hfirst, bind_run. cbn [fold_left].
      rewrite Hte. cbn [fst snd]. split; [reflexivity |].
      rewrite requests_app, Hreq1, Hreq. reflexivity. }
  destruct (Hbuild orgs [] Hnone) as (te & Hte & Hreq).
  assert (Hgather : gather_user_activities fuel env session = (te, Ret [])).
  { unfold gather_user_activities. rewrite Hte, bind_run. cbn. now rewrite app_nil_r. }
  assert (Hmain : main_after_check fuel env session = (te, Ret tt)).
  { unfold main_after_check. rewrite Hgather, bind_run. cbn. now rewrite app_nil_r. }
  rewrite Hmain. cbn [fst snd]. split; [exact Hreq | split; [reflexivity |]].
  exists te. rewrite Hmain, app_nil_r. auto.
Qed.

Lemma no_members_empty_report_witness :
  snd (main_after_check 1 sample_env empty_session) = Ret tt
  /\ report_of 1 sample_env empty_session [] [].
Proof.
  destruct (no_members_empty_report 1 sample_env empty_session) as (_ & Hend & Hreport).
  - lia.
  - intros org Horg. unfold orgs in Horg. simpl in Horg.
    repeat (destruct Horg as [<- | Horg];
            [intros [H1 H2]; first [discriminate H1 | exact (H2 eq_refl)] |]).
    destruct Horg.
  - split; assumption.
Defined.

(** X9. One timestamp that [fromisoformat] rejects is enough to lose the
    whole report: if the listings returned and some username of the mapping
    has a successful, non-empty events response whose first [created_at] is
    rejected, the run below the check sends every events request and then
    ends with [ValueError], having printed no report line. *)
Theorem rejected_timestamp_loses_the_report
    fuel env session te all_members username events_0 rest :
  build_all_members fuel session orgs [] = (te, Ret all_members) ->
  In username (dict_keys all_members) ->
  status (user_events session username) = 200%Z ->
  json (user_events session username) = events_0 :: rest ->
  fromisoformat env (replace "Z" "+00:00" (created_at events_0)) = None ->
  main_after_check fuel env session
  = (te ++ event_requests (dict_keys all_members), Raise ValueError).
Proof.
  intros Hbuild Hin Hstatus Hevents Hparse.
  assert (Hraise : last_activity env session username = Raise ValueError).
  { unfold last_activity, get_user_activity, get_events.
    rewrite bind_event, Hstatus, Hevents. cbn [Z.eqb Pos.eqb snd]. now rewrite Hparse. }
  unfold main_after_check, gather_user_activities.
  rewrite Hbuild, bind_run. cbv zeta. unfold make_tasks.
  fold (tasks_for env session (dict_keys all_members)).
  rewrite (gather_tasks_raises env session _ username Hin Hraise). reflexivity.
Qed.

Lemma rejected_timestamp_loses_the_report_witness :
  printed (fst (main_after_check 3 sample_env malformed_session)) = []
  /\ snd (main_after_check 3 sample_env malformed_session) = Raise ValueError.
Proof.
  rewrite (rejected_timestamp_loses_the_report 3 sample_env malformed_session
             (fst (build_all_members 3 malformed_session orgs []))
             [("alice", ["ipython"]); ("bob", ["ipython"])] "alice"
             (event_at "yesterday") []).
  - split; reflexivity.
  - vm_compute. reflexivity.
  - simpl. tauto.
  - reflexivity.
  - reflexivity.
  - reflexivity.
Defined.

(** X10. Every username of the mapping whose lookup gave a timestamp has a
    row in the report, with that timestamp and with the list the mapping
    holds for it: the positional pairing of usernames and results attributes
    each result to its own username. *)
Theorem active_usernames_are_reported fuel env session user_activities rows :
  report_of fuel env session user_activities rows ->
  exists te all_members,
    build_all_members fuel session orgs [] = (te, Ret all_members)
    /\ forall username last_seen,
         In username (dict_keys all_members) ->
         get_user_activity env session username
         = ([Get (UserEvents username)], Ret (Some last_seen)) ->
         exists user_orgs,
           dict_getitem all_members username = Some user_orgs
           /\ In (username, last_seen, user_orgs) rows.
Proof.
  intros Hreport.
  destruct (report_of_rows _ _ _ _ _ Hreport) as (Hperm & _ & _).
  destruct (report_of_gathered _ _ _ _ _ Hreport) as (te & d & Hd & _ & Hnames & Hrows).
  exists te, d. split; [exact Hd |].
  intros u dt Hu Hrun.
  assert (Hlast : last_activity env session u = Ret (Some dt)).
  { unfold last_activity. now rewrite Hrun. }
  assert (Hin : In u (map username_of user_activities)).
  { rewrite Hnames. apply filter_In. split; [exact Hu |].
    unfold has_activity. now rewrite Hlast. }
  apply in_map_iff in Hin. destruct Hin as ([[u' dt'] user_orgs] & Hname & Hrow).
  cbn [username_of fst] in Hname. subst u'.
  rewrite Forall_forall in Hrows. destruct (Hrows _ Hrow) as [Hdt Horgs].
  cbn [username_of last_activity_of orgs_of fst snd] in Hdt, Horgs.
  rewrite Hlast in Hdt. inversion Hdt; subst dt'.
  exists user_orgs. split; [exact Horgs |].
  exact (Permutation_in _ Hperm Hrow).
Qed.

Lemma active_usernames_are_reported_witness :
  exists user_orgs,
    dict_getitem sample_all_members "bob" = Some user_orgs
    /\ In ("bob", utc 2024 5 2 3 4 5, user_orgs) sample_rows.
Proof.
  destruct (active_usernames_are_reported 3 sample_env sample_session
              sample_user_activities sample_rows sample_report)
    as (te & d & Hd & Hrows).
  assert (Hsample : d = sample_all_members).
  { vm_compute in Hd. now inversion Hd. }
  subst d. apply Hrows; [simpl; tauto | reflexivity].
Defined.

(** X11. If the gathered rows hold an aware and a naive timestamp, the sort
    raises [TypeError] and no report line is printed; if they are all
    aware, or all naive, the sort returns and a line is printed for every
    row. *)
Theorem report_needs_timestamps_of_one_kind env user_activities :
  ((exists a b, In a user_activities /\ In b user_activities
                /\ aware (last_activity_of a) = true
                /\ aware (last_activity_of b) = false) ->
   report env user_activities = ([], Raise TypeError))
  /\ (forall kind,
        Forall (fun row => aware (last_activity_of row) = kind) user_activities ->
        exists rows,
          Permutation user_activities rows
          /\ report env user_activities
             = (map (fun row => Print (report_line env row)) rows, Ret tt)).
Proof.
  split.
  - intros (a & b & Ha & Hb & Haware & Hnaive).
    unfold report, sorted_reverse.
    rewrite (sort_mixed (rev user_activities) a b); try assumption;
      try (now apply -> in_rev).
    reflexivity.
  - intros kind Hkind. exists (rev (sort_by_instant (rev user_activities))).
    split; [apply sorted_reverse_spec |].
    unfold report, sorted_reverse.
    rewrite (sort_same_kind kind) by exact (Permutation_Forall (Permutation_rev _) Hkind).
    now rewrite bind_ret_l, print_rows_run.
Qed.

Lemma report_needs_timestamps_of_one_kind_witness :
  report sample_env [ ("alice", utc 2024 5 1 0 0 0, ["ipython"]);
                      ("bob", naive 2024 5 9 0 0 0, ["ipython"]) ]
  = ([], Raise TypeError).
Proof.
  apply (report_needs_timestamps_of_one_kind sample_env).
  exists ("alice", utc 2024 5 1 0 0 0, ["ipython"]),
    ("bob", naive 2024 5 9 0 0 0, ["ipython"]).
  simpl. tauto.
Defined.

(** X12. With a successful rate-limit response that leaves 10 or more
    requests and a reset time that [fromtimestamp] reads, the run goes on
    below the check after the two summary lines, with the warning line in
    between exactly when fewer than 100 are left. *)
Theorem main_proceeds_with_quota fuel env session reset_time :
  status (rate_limit session) = 200%Z ->
  (10 <= remaining (json (rate_limit session)))%Z ->
  fromtimestamp env (reset (json (rate_limit session))) = inr reset_time ->
  main fuel env session
  = (Get RateLimit
       :: Print ("Rate limit remaining: " ++ str_Z (remaining (json (rate_limit session))))
       :: Print ("Rate limit resets " ++ naturaltime_of_datetime env reset_time)
       :: (if (remaining (json (rate_limit session)) <? 100)%Z
           then [Print ("[yellow]Warning: Low rate limit ("
                          ++ str_Z (remaining (json (rate_limit session)))
                          ++ " remaining)[/yellow]")]
           else [])
       ++ fst (main_after_check fuel env session),
     snd (main_after_check fuel env session)).
Proof.
  intros Hstatus Hquota Hreset. rewrite main_run, Hstatus, Hreset. cbn [Z.eqb Pos.eqb].
  replace (remaining (json (rate_limit session)) <? 10)%Z with false
    by (symmetry; apply Z.ltb_ge; lia).
  reflexivity.
Qed.

Lemma main_proceeds_with_quota_witness :
  exists t,
    fst (main 3 sample_env
           (with_rate_limit (ok {| remaining := 50; reset := 0 |}) sample_session))
    = [ Get RateLimit; Print "Rate limit remaining: 50";
        Print "Rate limit resets at 1970-01-01T00:00:00";
        Print "[yellow]Warning: Low rate limit (50 remaining)[/yellow]";
        Get (OrgMembers "binder-examples" 1) ] ++ t.
Proof.
  rewrite (main_proceeds_with_quota 3 sample_env
             (with_rate_limit (ok {| remaining := 50; reset := 0 |}) sample_session)
             (naive 1970 1 1 0 0 0)).
  - eexists. vm_compute. reflexivity.
  - reflexivity.
  - simpl. lia.
  - reflexivity.
Defined.

(** X13. However a run of [main] goes, its requests are the rate-limit
    request, once and first, then member requests only, then events requests
    only, and no username is asked for twice: the listings are complete
    before the first lookup, and the quota is not read again. *)
Theorem main_requests_in_three_phases fuel env session :
  exists member_requests usernames,
    requests (fst (main fuel env session))
    = RateLimit :: member_requests ++ map UserEvents usernames
    /\ Forall org_request member_requests
    /\ NoDup usernames.
Proof.
  destruct (main_after_check_requests fuel env session) as (ms & us & Hreq & Hms & Hus).
  assert (Hafter : forall lines,
    requests (Get RateLimit :: map Print lines ++ fst (main_after_check fuel env session))
    = RateLimit :: ms ++ map UserEvents us).
  { intros lines. change (Get RateLimit :: ?t) with ([Get RateLimit] ++ t).
    rewrite !requests_app, requests_prints, Hreq. reflexivity. }
  assert (Hstop : exists member_requests usernames,
    [RateLimit] = RateLimit :: member_requests ++ map UserEvents usernames
    /\ Forall org_request member_requests /\ NoDup usernames).
  { exists [], []. repeat split; constructor. }
  rewrite main_run.
  destruct (status (rate_limit session) =? 200)%Z.
  - destruct (fromtimestamp env (reset (json (rate_limit session)))) as [e | reset_time];
      [exact Hstop |].
    destruct (remaining (json (rate_limit session)) <? 10)%Z; [exact Hstop |].
    exists ms, us. cbn [fst]. split; [| auto].
    destruct (remaining (json (rate_limit session)) <? 100)%Z.
    + exact (Hafter [_; _; _]).
    + exact (Hafter [_; _]).
  - exists ms, us. split; [exact (Hafter []) | auto].
Qed.

(** ** Text *)

Lemma length_append (s1 s2 : string) :
  String.length (s1 ++ s2) = String.length s1 + String.length s2.
Proof. induction s1 as [| c s1 IH]; simpl; [reflexivity | now rewrite IH]. Qed.

Lemma length_spaces n : String.length (string_of_list_ascii (repeat " "%char n)) = n.
Proof. induction n as [| n IH]; simpl; [reflexivity | now rewrite IH]. Qed.

Lemma prefix_append (s1 s2 : string) : String.prefix s1 (s1 ++ s2) = true.
Proof.
  induction s1 as [| c s1 IH]; simpl; [now destruct s2 |].
  destruct (ascii_dec c c); [exact IH | contradiction].
Qed.

Lemma free_of_append old (s1 s2 : string) :
  free_of old (s1 ++ s2) = free_of old s1 && free_of old s2.
Proof.
  induction s1 as [| c s1 IH]; simpl; [reflexivity |].
  rewrite IH. now rewrite andb_assoc.
Qed.

Lemma replace_leaves_none old new s :
  free_of old new = true -> free_of old (replace old new s) = true.
Proof.
  intros Hnew. induction s as [| c s IH]; simpl; [reflexivity |].
  destruct (Ascii.eqb c old) eqn:Hc.
  - now rewrite free_of_append, Hnew, IH.
  - simpl. now rewrite Hc, IH.
Qed.

(** X14. The username field of a report line is the username followed by
    spaces up to a width of 20; a username of 20 characters or more is
    printed in full, without padding, and is never cut. *)
Theorem report_line_username_field env username last_seen user_orgs :
  (exists rest,
      report_line env (username, last_seen, user_orgs)
      = (ljust 20 username ++ ": Last activity " ++ rest)%string)
  /\ String.prefix username (ljust 20 username) = true
  /\ String.length (ljust 20 username) = Nat.max 20 (String.length username)
  /\ (20 <= String.length username -> ljust 20 username = username).
Proof.
  split; [| split; [| split]].
  - cbn [report_line]. eexists. reflexivity.
  - apply prefix_append.
  - unfold ljust. rewrite length_append, length_spaces. lia.
  - intros Hlong. unfold ljust.
    replace (20 - String.length username) with 0 by lia.
    cbn [repeat string_of_list_ascii].
    clear. induction username as [| c s IH]; simpl; [reflexivity | now rewrite IH].
Qed.

Lemma report_line_username_field_witness :
  ljust 20 "a-login-of-more-than-twenty-characters"
  = "a-login-of-more-than-twenty-characters".
Proof.
  apply (report_line_username_field sample_env "a-login-of-more-than-twenty-characters"
           (utc 2024 5 1 0 0 0) []).
  simpl. lia.
Defined.

(** X15. The text handed to [fromisoformat] never holds a [Z]: two
    environments whose parsers agree on all texts without [Z] give the same
    lookup, whatever they do with a [Z].  A [created_at] without [Z] is
    handed over as it is. *)
Theorem get_user_activity_parses_text_without_Z env env' session username :
  (forall s, free_of "Z" s = true -> fromisoformat env s = fromisoformat env' s) ->
  get_user_activity env session username = get_user_activity env' session username
  /\ (forall events_0 rest,
        json (user_events session username) = events_0 :: rest ->
        free_of "Z" (created_at events_0) = true ->
        replace "Z" "+00:00" (created_at events_0) = created_at events_0).
Proof.
  intros Hagree. split.
  - unfold get_user_activity, get_events. rewrite !bind_event.
    destruct (status (user_events session username) =? 200)%Z; [| reflexivity].
    destruct (json (user_events session username)) as [| e rest]; [reflexivity |].
    now rewrite (Hagree _ (replace_leaves_none "Z" "+00:00" (created_at e) eq_refl)).
  - intros e rest _ Hfree. now apply replace_free_of.
Qed.

Lemma get_user_activity_parses_text_without_Z_witness :
  get_user_activity sample_env sample_session "bob"
  = get_user_activity sample_env_reading_Z sample_session "bob"
  /\ fromisoformat sample_env "2024-05-02T03:04:05Z"
     <> fromisoformat sample_env_reading_Z "2024-05-02T03:04:05Z".
Proof.
  split; [| discriminate].
  apply (get_user_activity_parses_text_without_Z sample_env sample_env_reading_Z
           sample_session "bob").
  intros s Hfree. cbn [fromisoformat sample_env sample_env_reading_Z].
  unfold parse_isoformat_or_Z. rewrite (replace_free_of _ _ _ Hfree).
  now destruct (parse_isoformat s).
Defined.

(** X16. A lookup sends its one request and nothing else: it prints
    nothing, whatever the response, and does not ask again.  It ends with a
    timestamp, with [None], or with the [ValueError] of a rejected text, and
    with [None] exactly when the response is not a success or has no
    event. *)
Theorem get_user_activity_is_one_silent_request env session username :
  fst (get_user_activity env session username) = [Get (UserEvents username)]
  /\ ((exists last_seen, snd (get_user_activity env session username) = Ret (Some last_seen))
      \/ snd (get_user_activity env session username) = Ret None
      \/ snd (get_user_activity env session username) = Raise ValueError)
  /\ (snd (get_user_activity env session username) = Ret None
      <-> status (user_events session username) <> 200%Z
          \/ json (user_events session username) = []).
Proof.
  unfold get_user_activity, get_events. rewrite bind_event. cbn [fst snd].
  destruct (Z.eqb_spec (status (user_events session username)) 200) as [Hs | Hs].
  - destruct (json (user_events session username)) as [| e rest].
    + split; [reflexivity | split; [auto |]]. split; auto.
    + destruct (fromisoformat env _) as [dt |].
      * split; [reflexivity | split; [left; now exists dt |]].
        split; [discriminate | intros [H | H]; [contradiction | discriminate]].
      * split; [reflexivity | split; [auto |]].
        split; [discriminate | intros [H | H]; [contradiction | discriminate]].
  - split; [reflexivity | split; [auto |]]. split; auto.
Qed.
